(** * Spam detector: the classification and notification pipeline of server.js

    A shallow embedding of the Express server: the keyword classifier
    [analyzeSpam], the notification gate of the POST handler, the POST and
    GET handlers themselves over an explicit world (collection, mail
    attempts, console), and the properties stated about them.

    Modelling choices.
    - A JavaScript string is a sequence of UTF-16 code units.  The model
      covers the strings whose code units are below 256: a [string] holds
      one [ascii] per code unit, so [length], [slice] and [includes] count
      code units as the engine does.
    - A JavaScript number is an IEEE 754 binary64 value: [float] with the
      primitive operations, which round as the engine does.
    - A Date is its time value, an integer number of milliseconds. *)

From Stdlib Require Import Bool Arith ZArith Lia List.
From Stdlib Require Import Ascii String.
From Stdlib Require Import Floats Uint63.
From Stdlib Require QArith Qabs Qminmax DecimalString.
From Stdlib Require Import Permutation Sorted.
Import ListNotations.

#[local] Set Warnings "-inexact-float".
#[local] Open Scope list_scope.
#[local] Open Scope string_scope.

(** ** JavaScript strings *)

Module JsString.

(** Code units with the Uppercase property below 256: A-Z, and the
    Latin-1 capitals U+00C0..U+00DE except the multiplication sign
    U+00D7.  Each has its lowercase 32 places further. *)
Definition isUpper (n : nat) : bool :=
  (((65 <=? n) && (n <=? 90)) ||
   ((192 <=? n) && (n <=? 222) && negb (n =? 215)))%nat.

Definition lowerChar (c : ascii) : ascii :=
  let n := nat_of_ascii c in
  if isUpper n then ascii_of_nat (n + 32) else c.

(** [String.prototype.toLowerCase] *)
Fixpoint toLowerCase (s : string) : string :=
  match s with
  | EmptyString => EmptyString
  | String c s' => String (lowerChar c) (toLowerCase s')
  end.

(** [w] occurs in [s] at position 0 *)
Fixpoint startsWith (s w : string) : bool :=
  match w, s with
  | EmptyString, _ => true
  | String _ _, EmptyString => false
  | String a w', String b s' => Ascii.eqb a b && startsWith s' w'
  end.

(** [String.prototype.includes]: [w] occurs in [s] at some position *)
Fixpoint includes (s w : string) : bool :=
  startsWith s w ||
  match s with
  | EmptyString => false
  | String _ s' => includes s' w
  end.

(** WhiteSpace and LineTerminator code units below 256: TAB, LF, VT, FF,
    CR, SP and NBSP. *)
Definition isSpace (c : ascii) : bool :=
  let n := nat_of_ascii c in
  (((9 <=? n) && (n <=? 13)) || (n =? 32) || (n =? 160))%nat.

Fixpoint trimStart (s : string) : string :=
  match s with
  | EmptyString => EmptyString
  | String c s' => if isSpace c then trimStart s' else s
  end.

(** The string without its trailing white space: a character is dropped
    when it is white space and nothing is left after it. *)
Fixpoint trimEnd (s : string) : string :=
  match s with
  | EmptyString => EmptyString
  | String c s' =>
      match trimEnd s' with
      | EmptyString => if isSpace c then EmptyString else String c EmptyString
      | r => String c r
      end
  end.

(** [String.prototype.trim] *)
Definition trim (s : string) : string := trimEnd (trimStart s).

(** [s.slice(b, e)] for indices [0 <= b], [0 <= e] *)
Definition slice (b e : nat) (s : string) : string := substring b (e - b) s.

(** [Array.prototype.join] on an array of strings *)
Fixpoint join (sep : string) (l : list string) : string :=
  match l with
  | [] => ""
  | [x] => x
  | x :: rest => x ++ sep ++ join sep rest
  end.

End JsString.
Import JsString.

(** ** JavaScript numbers *)

Module JsNumber.

(** The Number of an array length *)
Definition ofLength (n : nat) : float :=
  PrimFloat.of_uint63 (Uint63.of_Z (Z.of_nat n)).

(** [Math.min(a, b)]: NaN when an argument is NaN, and -0 below +0 *)
Definition Math_min (a b : float) : float :=
  if PrimFloat.is_nan a || PrimFloat.is_nan b then PrimFloat.nan
  else if PrimFloat.ltb a b then a
  else if PrimFloat.ltb b a then b
  else if PrimFloat.is_zero a && PrimFloat.get_sign b then b
  else a.

(** [a >= b] *)
Definition ge (a b : float) : bool := PrimFloat.leb b a.

(** The rational a finite Number stands for *)
Definition toQ (x : float) : QArith_base.Q :=
  match Prim2SF x with
  | S754_finite s m e =>
      QArith_base.Qmult
        (QArith_base.inject_Z (if s then Z.neg m else Z.pos m))
        (QArith_base.Qpower (QArith_base.inject_Z 2) e)
  | _ => QArith_base.inject_Z 0
  end.

End JsNumber.
Import JsNumber.

(** ** The classifier *)

Definition SPAM_KEYWORDS : list string :=
  [ "free"; "win"; "winner"; "prize"; "congratulations"; "click here";
    "lottery"; "cash"; "urgent"; "offer"; "limited time"; "buy now" ].

Record Analysis : Type := mkAnalysis {
  result : string;
  probability : float;
  matchedKeywords : list string
}.

(** The callback of [SPAM_KEYWORDS.forEach]: push the word when the
    lowered text includes it. *)
Definition pushIfIncluded (lower : string) (matched : list string) (word : string)
  : list string :=
  if includes lower word then (matched ++ [word])%list else matched.

Definition analyzeSpam (text : string) : Analysis :=
  let lower := toLowerCase text in
  let matched := fold_left (pushIfIncluded lower) SPAM_KEYWORDS [] in
  let score := ofLength (List.length matched) in
  let probability := Math_min 1 (PrimFloat.div score 5) in
  let result := if ge probability 0.5 then "spam" else "not_spam" in
  mkAnalysis result probability matched.

(** The probability of a score *)
Definition probabilityOf (n : nat) : float :=
  Math_min 1 (PrimFloat.div (ofLength n) 5).

(** The exact value the specification gives a score: min(1, n/5) *)
Definition exactProbability (n : nat) : QArith_base.Q :=
  Qminmax.Qmin (QArith_base.inject_Z 1) (QArith_base.Qmake (Z.of_nat n) 5).

(** Half the spacing of the Numbers between 1/2 and 1: 2^-54 *)
Definition halfUlp : QArith_base.Q := QArith_base.Qmake 1 (2 ^ 54).

(** The text contains [w] up to letter case: some substring of the text
    and [w] have the same lowercase form. *)
Definition ci_substring (w text : string) : Prop :=
  exists pre mid post,
    text = pre ++ mid ++ post /\ toLowerCase mid = toLowerCase w.

(** ** JavaScript values and completions *)

(** The values a JSON request body or an environment variable can hold.
    Arrays and objects are [JsObject]: they are truthy and have no [trim]
    or [toLowerCase] method. *)
Inductive JsValue : Type :=
| JsUndefined
| JsNull
| JsBool (b : bool)
| JsNum (x : float)
| JsStr (s : string)
| JsObject.

(** ToBoolean *)
Definition truthy (v : JsValue) : bool :=
  match v with
  | JsUndefined | JsNull => false
  | JsBool b => b
  | JsNum x => negb (PrimFloat.is_zero x || PrimFloat.is_nan x)
  | JsStr EmptyString => false
  | JsStr (String _ _) => true
  | JsObject => true
  end.

(** [a || b] and [a && b] return one of their operands. *)
Definition js_or (a b : JsValue) : JsValue := if truthy a then a else b.
Definition js_and (a b : JsValue) : JsValue := if truthy a then b else a.

Inductive JsError : Type :=
| TypeError (message : string)
| Rejected (message : string).

Definition message (e : JsError) : string :=
  match e with TypeError m | Rejected m => m end.

(** How an evaluation ends: with a value, or with a thrown error (a
    rejected promise under [await]). *)
Inductive Completion (A : Type) : Type :=
| Normal (a : A)
| Throw (e : JsError).
Arguments Normal {A} a.
Arguments Throw {A} e.

(** ** Configuration and collaborators *)

(** [process.env]: a variable is a string or undefined. *)
Record Env : Type := mkEnv {
  MAIL_FROM : option string;
  ALERT_DEFAULT_TO : option string
}.

Definition envValue (v : option string) : JsValue :=
  match v with
  | Some s => JsStr s
  | None => JsUndefined
  end.

Definition ObjectId : Type := string.

(** A document of the SpamCheck collection. *)
Module SpamCheck.
Record t : Type := mk {
  _id : ObjectId;
  text : string;
  result : string;
  spamProbability : float;
  matchedKeywords : list string;
  createdAt : Z
}.
End SpamCheck.

(** What [sendAlertEmail] hands to the transporter.  The subject and the
    body are template strings over [score] (shown as
    [Math.round(score * 100)]), [keywords] and [quoted]; they are kept as
    these three parts. *)
Record MailOptions : Type := mkMail {
  from : JsValue;
  to : JsValue;
  score : float;
  keywords : string;
  quoted : string
}.

(** What a request meets outside the process.
    - [insert]: the [_id] and the [Date.now()] default that
      [SpamCheck.create] assigns, or [None] when the write is rejected.
    - [sendMail]: the transporter; the message id, or the error it
      rejects with.
    - [ties]: how the database answers the history query: [None] when
      it rejects it, else which of two documents of equal [createdAt] it
      returns first.  The query names [createdAt] only, so that order is
      the database's; documents being distinct, every order it can choose
      is the order of some such function. *)
Definition TieOrder : Type := SpamCheck.t -> SpamCheck.t -> bool.

Record Outside : Type := mkOutside {
  insert : option (ObjectId * Z);
  sendMail : MailOptions -> Completion string;
  ties : option TieOrder
}.

(** ** The history query: [find().sort({ createdAt: -1 }).limit(10)] *)

(** A document is put in its place in a list sorted on [createdAt]
    descending: before the first document that is older, or that is as
    old and comes after it in the database's order. *)
Fixpoint insertByCreatedAt (first : TieOrder) (d : SpamCheck.t)
  (l : list SpamCheck.t) : list SpamCheck.t :=
  match l with
  | [] => [d]
  | x :: l' =>
      if ((SpamCheck.createdAt x <? SpamCheck.createdAt d)%Z
          || ((SpamCheck.createdAt x =? SpamCheck.createdAt d)%Z && first d x))%bool
      then d :: l
      else x :: insertByCreatedAt first d l'
  end.

(** [.sort({ createdAt: -1 })]: the sort key is [createdAt], the direction
    descending. *)
Definition sortCreatedAtDesc (first : TieOrder) (coll : list SpamCheck.t)
  : list SpamCheck.t :=
  fold_right (insertByCreatedAt first) [] coll.

(** [.limit(n)] *)
Definition limit (n : nat) (docs : list SpamCheck.t) : list SpamCheck.t :=
  firstn n docs.

(** [SpamCheck.find().sort({ createdAt: -1 }).limit(10)] on a collection:
    every document, sorted, at most ten of them; or the rejection. *)
Definition find (out : Outside) (coll : list SpamCheck.t)
  : option (list SpamCheck.t) :=
  match ties out with
  | Some first => Some (limit 10 (sortCreatedAtDesc first coll))
  | None => None
  end.

Inductive LogEntry : Type :=
| EmailSent (messageId : string)
| AlertEmailError (msg : string)
| CheckError (e : JsError)
| HistoryError (e : JsError).

(** The state a request can change: the collection in insertion order,
    the messages handed to the transporter (delivered or not), and the
    console. *)
Record World : Type := mkWorld {
  collection : list SpamCheck.t;
  attempts : list MailOptions;
  console : list LogEntry
}.

(** ** Effects: state and exceptions *)

Definition Eff (A : Type) : Type := World -> Completion A * World.

Definition ret {A} (a : A) : Eff A := fun w => (Normal a, w).

Definition bind {A B} (m : Eff A) (k : A -> Eff B) : Eff B :=
  fun w =>
    match m w with
    | (Normal a, w') => k a w'
    | (Throw e, w') => (Throw e, w')
    end.

Definition lift {A} (c : Completion A) : Eff A := fun w => (c, w).

(** [try { m } catch (e) { h e }] *)
Definition try_catch {A} (m : Eff A) (h : JsError -> Eff A) : Eff A :=
  fun w =>
    match m w with
    | (Normal a, w') => (Normal a, w')
    | (Throw e, w') => h e w'
    end.

Declare Scope eff_scope.
Delimit Scope eff_scope with eff.
Notation "x <- m ;; k" := (bind m (fun x => k))
  (at level 61, m at next level, right associativity) : eff_scope.
Notation "m ;;; k" := (bind m (fun _ => k))
  (at level 61, right associativity) : eff_scope.
#[local] Open Scope eff_scope.

Definition log (e : LogEntry) : Eff unit :=
  fun w => (Normal tt, mkWorld (collection w) (attempts w) (console w ++ [e])%list).

(** ** The POST /api/spam/check handler *)

Inductive Body : Type :=
| Message (m : string)
| Checked (id : ObjectId) (result : string) (spamProbability : float)
          (matchedKeywords : list string) (createdAt : Z)
| History (views : list SpamCheck.t).

Record Response : Type := mkResponse {
  status : nat;
  body : Body
}.

Record Request : Type := mkRequest {
  req_text : JsValue;
  req_notifyEmail : JsValue
}.

(** [!text || !text.trim()]; a truthy value that is not a string has no
    [trim]. *)
Definition textMissing (text : JsValue) : Completion bool :=
  if negb (truthy text) then Normal true
  else match text with
       | JsStr s => Normal (negb (truthy (JsStr (trim s))))
       | _ => Throw (TypeError "text.trim is not a function")
       end.

(** [analyzeSpam(text)] on a request value *)
Definition analyze (text : JsValue) : Completion (string * Analysis) :=
  match text with
  | JsStr s => Normal (s, analyzeSpam s)
  | _ => Throw (TypeError "text.toLowerCase is not a function")
  end.

(** [SpamCheck.create({text, result, spamProbability, matchedKeywords})] *)
Definition create (out : Outside) (text : string) (a : Analysis) : Eff SpamCheck.t :=
  fun w =>
    match insert out with
    | Some (id, now) =>
        let doc := SpamCheck.mk id text (result a) (probability a)
                                (matchedKeywords a) now in
        (Normal doc, mkWorld (collection w ++ [doc])%list (attempts w) (console w))
    | None => (Throw (Rejected "insert failed"), w)
    end.

(** [(notifyEmail || process.env.ALERT_DEFAULT_TO) && probability * 100 >= 40] *)
Definition shouldNotify (env : Env) (notifyEmail : JsValue) (probability : float)
  : JsValue :=
  js_and (js_or notifyEmail (envValue (ALERT_DEFAULT_TO env)))
         (JsBool (ge (PrimFloat.mul probability 100) 40)).

(** The [mailOptions] of [sendAlertEmail] *)
Definition mailOptions (env : Env) (toEmail : JsValue) (text : string)
  (probability : float) (matchedKeywords : list string) : MailOptions :=
  mkMail (envValue (MAIL_FROM env))
         (js_or toEmail (envValue (ALERT_DEFAULT_TO env)))
         probability
         (match matchedKeywords with
          | [] => "none"
          | _ => join ", " matchedKeywords
          end)
         text.

(** [transporter.sendMail(mailOptions)] *)
Definition transporter_sendMail (out : Outside) (m : MailOptions) : Eff string :=
  fun w =>
    (sendMail out m, mkWorld (collection w) (attempts w ++ [m])%list (console w)).

Definition sendAlertEmail (env : Env) (out : Outside) (toEmail : JsValue)
  (text : string) (probability : float) (matchedKeywords : list string) : Eff unit :=
  info <- transporter_sendMail out
            (mailOptions env toEmail text probability matchedKeywords) ;;
  log (EmailSent info).

Definition checkHandler (env : Env) (out : Outside) (req : Request) : Eff Response :=
  try_catch
    (missing <- lift (textMissing (req_text req)) ;;
     if (missing : bool) then ret (mkResponse 400 (Message "Text is required"))
     else
       ta <- lift (analyze (req_text req)) ;;
       let '(text, a) := ta in
       doc <- create out text a ;;
       (if truthy (shouldNotify env (req_notifyEmail req) (probability a))
        then try_catch
               (sendAlertEmail env out (req_notifyEmail req) text
                               (probability a) (matchedKeywords a))
               (fun mailErr => log (AlertEmailError (message mailErr)))
        else ret tt) ;;;
       ret (mkResponse 200
              (Checked (SpamCheck._id doc) (result a) (probability a)
                       (matchedKeywords a) (SpamCheck.createdAt doc))))
    (fun err =>
       log (CheckError err) ;;;
       ret (mkResponse 500 (Message "Server error"))).

(** ** The GET /api/spam/history handler *)

(** [d.text.length > 80 ? d.text.slice(0, 77) + "..." : d.text] *)
Definition viewText (t : string) : string :=
  if (80 <? String.length t)%nat then slice 0 77 t ++ "..." else t.

(** The object each document is mapped to *)
Definition view (d : SpamCheck.t) : SpamCheck.t :=
  SpamCheck.mk (SpamCheck._id d) (viewText (SpamCheck.text d)) (SpamCheck.result d)
               (SpamCheck.spamProbability d) (SpamCheck.matchedKeywords d)
               (SpamCheck.createdAt d).

(** [SpamCheck.find().sort({ createdAt: -1 }).limit(10)] *)
Definition findRecent (out : Outside) : Eff (list SpamCheck.t) :=
  fun w =>
    match find out (collection w) with
    | Some docs => (Normal docs, w)
    | None => (Throw (Rejected "find failed"), w)
    end.

Definition historyHandler (out : Outside) : Eff Response :=
  try_catch
    (docs <- findRecent out ;;
     ret (mkResponse 200 (History (map view docs))))
    (fun err =>
       log (HistoryError err) ;;;
       ret (mkResponse 500 (Message "Server error"))).

(** ** The database query *)

Definition newerOrEqual (a b : SpamCheck.t) : Prop :=
  (SpamCheck.createdAt b <= SpamCheck.createdAt a)%Z.

(** What every answer to a sort on [createdAt] descending with a limit
    is, whatever the order between documents of equal [createdAt]: the
    first [n] documents of some arrangement of the collection in which
    [createdAt] never increases. *)
Definition RecentOf (n : nat) (coll docs : list SpamCheck.t) : Prop :=
  exists arranged,
    Permutation arranged coll /\
    StronglySorted newerOrEqual arranged /\
    docs = firstn n arranged.

(** A server that keeps documents of equal [createdAt] in the order it
    scans them, which is insertion order: a stable insertion sort. *)
Fixpoint insertDesc (d : SpamCheck.t) (l : list SpamCheck.t) : list SpamCheck.t :=
  match l with
  | [] => [d]
  | x :: l' =>
      if (SpamCheck.createdAt x <=? SpamCheck.createdAt d)%Z
      then d :: l
      else x :: insertDesc d l'
  end.

Definition sortDesc (coll : list SpamCheck.t) : list SpamCheck.t :=
  fold_right insertDesc [] coll.

(** A database that answers the query and returns documents of equal
    [createdAt] in scan order: the document met first comes first. *)
Definition scanOrder : TieOrder := fun _ _ => true.

Definition scanOrderFind : option TieOrder := Some scanOrder.

(** A database that returns the most recently inserted of them first *)
Definition latestFirst : TieOrder := fun _ _ => false.

(** The history as the specification words it: newest first, and among
    documents of equal [createdAt] the most recently inserted first. *)
Definition recentList_spec (n : nat) (coll : list SpamCheck.t) : list SpamCheck.t :=
  firstn n (sortDesc (rev coll)).

(** The verdict of a stored record agrees with its probability. *)
Definition verdictConsistent (d : SpamCheck.t) : Prop :=
  SpamCheck.result d = "spam" <-> ge (SpamCheck.spamProbability d) 0.5 = true.

(** Two documents created in the same millisecond, [tieA] inserted
    first, and a server that answers in scan order. *)
Definition tieA : SpamCheck.t :=
  SpamCheck.mk "a" "free cash" "not_spam" 0.4 ["free"; "cash"] 1000.
Definition tieB : SpamCheck.t :=
  SpamCheck.mk "b" "hello" "not_spam" 0 [] 1000.
Definition tieWorld : World := mkWorld [tieA; tieB] [] [].
Definition scanOrderServer : Outside :=
  mkOutside None (fun _ => Throw (Rejected "connection refused")) scanOrderFind.

(** The same collaborators with another transporter *)
Definition withTransport (out : Outside) (t : MailOptions -> Completion string)
  : Outside :=
  mkOutside (insert out) t (ties out).

(** ** The alert message

    [sendAlertEmail] builds the subject and the body from
    [Math.round(probability * 100)], the keyword line and the text. *)

Definition ofZ (z : Z) : float :=
  if (z <? 0)%Z then PrimFloat.opp (PrimFloat.of_uint63 (Uint63.of_Z (- z)))
  else PrimFloat.of_uint63 (Uint63.of_Z z).

(** [Math.round]: a Number that is not finite or is integral is returned
    as it is; otherwise the integer [floor(x + 1/2)], computed exactly on
    mantissa and exponent, a result of zero keeping the sign of [x]. *)
Definition Math_round (x : float) : float :=
  match Prim2SF x with
  | S754_finite s m e =>
      if (0 <=? e)%Z then x
      else
        let n := if s then Z.neg m else Z.pos m in
        let z := ((2 * n + 2 ^ (- e)) / 2 ^ (1 - e))%Z in
        if (z =? 0)%Z then (if s then PrimFloat.neg_zero else PrimFloat.zero)
        else ofZ z
  | _ => x
  end.

(** The integer an integral Number stands for *)
Definition integerOf (x : float) : option Z :=
  match Prim2SF x with
  | S754_zero _ => Some 0%Z
  | S754_finite s m e =>
      let n := if s then Z.neg m else Z.pos m in
      if (0 <=? e)%Z then Some (n * 2 ^ e)%Z
      else if (Z.pos m mod 2 ^ (- e) =? 0)%Z then Some (n / 2 ^ (- e))%Z
      else None
  | _ => None
  end.

Definition decimal (z : Z) : string :=
  DecimalString.NilZero.string_of_int (Z.to_int z).

(** Number::toString as a template literal applies it, on the Numbers
    [Math.round] returns: NaN, the infinities and the integers.  An
    integer below 10^21 in magnitude is written with its decimal digits;
    the exponent notation of the larger ones is not modelled ([None]). *)
Definition Number_toString (x : float) : option string :=
  if PrimFloat.is_nan x then Some "NaN"
  else if PrimFloat.eqb x PrimFloat.infinity then Some "Infinity"
  else if PrimFloat.eqb x PrimFloat.neg_infinity then Some "-Infinity"
  else match integerOf x with
       | Some z => if (Z.abs z <? 10 ^ 21)%Z then Some (decimal z) else None
       | None => None
       end.

Definition nl : string := String (ascii_of_nat 10) "".

Definition ruler : string := "------------------------------------------------".

(** [percent] of [sendAlertEmail] *)
Definition percent (m : MailOptions) : float :=
  Math_round (PrimFloat.mul (score m) 100).

(** [mailOptions.subject] *)
Definition subject (m : MailOptions) : option string :=
  match Number_toString (percent m) with
  | Some p => Some ("[Spam Alert] " ++ p ++ "% spam detected")
  | None => None
  end.

(** The template literal of [mailOptions.text], before [trim] *)
Definition bodyTemplate (p keywordLine text : string) : string :=
  nl ++ "We detected a spammy message." ++ nl ++
  nl ++
  "Spam score: " ++ p ++ "%" ++ nl ++
  "Keywords: " ++ keywordLine ++ nl ++
  nl ++
  "Message:" ++ nl ++
  ruler ++ nl ++
  text ++ nl ++
  ruler ++ nl ++
  "    ".

(** [mailOptions.text] *)
Definition bodyText (m : MailOptions) : option string :=
  match Number_toString (percent m) with
  | Some p => Some (trim (bodyTemplate p (keywords m) (quoted m)))
  | None => None
  end.

(** The record a successful request writes *)
Definition recordOf (id : ObjectId) (now : Z) (text : string) : SpamCheck.t :=
  let a := analyzeSpam text in
  SpamCheck.mk id text (result a) (probability a) (matchedKeywords a) now.

(** The score of a text *)
Definition scoreOf (text : string) : nat :=
  List.length (matchedKeywords (analyzeSpam text)).

(** ** The page: App.js

    The keyword highlighter and the two requests of the page.  A regular
    expression built by [getHighlightedHtml] is one capturing group of
    alternatives made of literal and escaped characters; [new RegExp] and
    [String.prototype.replace] are modelled on that fragment. *)

Module App.

Definition backslash : ascii := ascii_of_nat 92.
Definition dquote : string := String (ascii_of_nat 34) "".

(** The class [[.*+?^${}()|[\]\\]] of [escapeRegExp], which holds the
    fourteen syntax characters of a pattern. *)
Definition isSyntaxChar (c : ascii) : bool :=
  existsb (Ascii.eqb c) (list_ascii_of_string ".*+?^${}()|[]" ++ [backslash])%list.

(** [str.replace(/[.*+?^${}()|[\]\\]/g, "\\$&")]: every character of the
    class is replaced by a backslash and itself. *)
Fixpoint escapeRegExp (str : string) : string :=
  match str with
  | EmptyString => EmptyString
  | String c s =>
      if isSyntaxChar c then String backslash (String c (escapeRegExp s))
      else String c (escapeRegExp s)
  end.

(** Adds a character to the first alternative read so far. *)
Definition consChar (c : ascii) (r : option (list string)) : option (list string) :=
  match r with
  | Some (a :: l) => Some (String c a :: l)
  | _ => None
  end.

(** The alternatives of a group, read after its opening parenthesis: a
    character that is not a syntax character stands for itself, a
    backslash before a syntax character for that character, [|] starts
    the next alternative and [)] must end the source.  Any other source
    is outside the fragment ([None]). *)
Fixpoint parseGroup (src : string) : option (list string) :=
  match src with
  | EmptyString => None
  | String c rest =>
      if Ascii.eqb c ")" then
        match rest with EmptyString => Some [""] | String _ _ => None end
      else if Ascii.eqb c "|" then option_map (cons "") (parseGroup rest)
      else if Ascii.eqb c backslash then
        match rest with
        | String d rest' =>
            if isSyntaxChar d then consChar d (parseGroup rest') else None
        | EmptyString => None
        end
      else if isSyntaxChar c then None
      else consChar c (parseGroup rest)
  end.

(** [new RegExp(src, "gi")] on the fragment: the alternatives in order *)
Definition RegExp_alternatives (src : string) : option (list string) :=
  match src with
  | String c rest => if Ascii.eqb c "(" then parseGroup rest else None
  | EmptyString => None
  end.

(** Canonicalize of a code unit under the [i] flag without the [u] flag:
    its uppercase when that is one code unit, and not an ASCII one for a
    code unit from 128 on.  Below 256 the letters a-z and the Latin-1
    small letters move 32 places down, the micro sign goes to U+039C, y
    with diaeresis to U+0178, and sharp s (uppercase "SS") stays. *)
Definition canonicalize (c : ascii) : nat :=
  let n := nat_of_ascii c in
  if (((97 <=? n) && (n <=? 122)) ||
      ((224 <=? n) && (n <=? 254) && negb (n =? 247)))%nat then n - 32
  else if (n =? 181)%nat then 924
  else if (n =? 255)%nat then 376
  else n.

(** The characters of [text] a literal matches at position 0 *)
Fixpoint matchLiteral (lit text : string) : option string :=
  match lit with
  | EmptyString => Some EmptyString
  | String a lit' =>
      match text with
      | EmptyString => None
      | String b text' =>
          if (canonicalize a =? canonicalize b)%nat
          then option_map (String b) (matchLiteral lit' text')
          else None
      end
  end.

(** The match of the group at position 0: the first alternative that
    matches, in the order of the source. *)
Fixpoint matchAlternatives (alts : list string) (text : string) : option string :=
  match alts with
  | [] => None
  | a :: rest =>
      match matchLiteral a text with
      | Some m => Some m
      | None => matchAlternatives rest text
      end
  end.

(** The replacement ['<mark class="kw-highlight">$1</mark>'] for a match *)
Definition mark (m : string) : string :=
  "<mark class=" ++ dquote ++ "kw-highlight" ++ dquote ++ ">" ++ m ++ "</mark>".

(** [text.replace(regex, replacement)] with the [g] flag.  The text is
    scanned from the left; [skip] counts the characters of the current
    match still to pass.  At each position not inside a match the group
    is tried: a match is replaced and the scan goes on after it, and after
    an empty match the scan moves one character on, which is copied. *)
Fixpoint replaceAll (alts : list string) (skip : nat) (text : string) : string :=
  match skip with
  | S k =>
      match text with
      | EmptyString => EmptyString
      | String _ t => replaceAll alts k t
      end
  | O =>
      match matchAlternatives alts text with
      | Some m =>
          mark m ++
          match text with
          | EmptyString => EmptyString
          | String c t =>
              match String.length m with
              | O => String c (replaceAll alts 0 t)
              | S k => replaceAll alts k t
              end
          end
      | None =>
          match text with
          | EmptyString => EmptyString
          | String c t => String c (replaceAll alts 0 t)
          end
      end
  end.

(** [getHighlightedHtml(text, keywords)], [keywords] being an array.
    [None] stands for a source outside the fragment. *)
Definition getHighlightedHtml (text : string) (keywords : list string)
  : option string :=
  if negb (truthy (JsStr text)) then Some ""
  else match keywords with
       | [] => Some text
       | _ :: _ =>
           let escaped := map escapeRegExp keywords in
           match RegExp_alternatives ("(" ++ join "|" escaped ++ ")") with
           | Some alts => Some (replaceAll alts 0 text)
           | None => None
           end
       end.

(** The parts of a highlighted text: a copied character or a marked
    match. *)
Inductive Piece : Type :=
| Plain (c : ascii)
| Marked (m : string).

Fixpoint render (ps : list Piece) : string :=
  match ps with
  | [] => ""
  | Plain c :: r => String c (render r)
  | Marked m :: r => mark m ++ render r
  end.

(** The text the parts were cut from *)
Fixpoint erase (ps : list Piece) : string :=
  match ps with
  | [] => ""
  | Plain c :: r => String c (erase r)
  | Marked m :: r => m ++ erase r
  end.

(** The parts [replaceAll] produces *)
Fixpoint pieces (alts : list string) (skip : nat) (text : string) : list Piece :=
  match skip with
  | S k =>
      match text with
      | EmptyString => []
      | String _ t => pieces alts k t
      end
  | O =>
      match matchAlternatives alts text with
      | Some m =>
          Marked m ::
          match text with
          | EmptyString => []
          | String c t =>
              match String.length m with
              | O => Plain c :: pieces alts 0 t
              | S k => pieces alts k t
              end
          end
      | None =>
          match text with
          | EmptyString => []
          | String c t => Plain c :: pieces alts 0 t
          end
      end
  end.

(** The parts of what [getHighlightedHtml] returns *)
Definition shownPieces (text : string) (keywords : list string) : list Piece :=
  match text, keywords with
  | EmptyString, _ => []
  | _, [] => map Plain (list_ascii_of_string text)
  | _, _ => pieces keywords 0 text
  end.

(** The text without its first [n] characters *)
Fixpoint dropChars (n : nat) (s : string) : string :=
  match n, s with
  | S k, String _ t => dropChars k t
  | _, _ => s
  end.

End App.

(** ** The page: its state and its two requests

    The state of the [App] component, and [loadHistory] and [handleCheck]
    run against the server of this file.  The JSON a handler sends is its
    [Body]; a [createdAt] stays its time value. *)

Module Page.

Record t : Type := mk {
  text : string;
  alertEmail : string;
  result : JsValue;
  probability : option float;
  time : option Z;
  matchedKeywords : list string;
  history : Body;
  loading : bool;
  error : string
}.

(** The state of a fresh page *)
Definition initial : t :=
  mk "" "" (JsStr "") None None [] (History []) false "".

(** Whether [fetch] reaches the server, for each of the two requests *)
Record Net : Type := mkNet {
  checkReachable : bool;
  historyReachable : bool
}.

(** [setError(""); setResult(""); setProbability(null); setTime("");
    setMatchedKeywords([])] *)
Definition cleared (u : t) : t :=
  mk (text u) (alertEmail u) (JsStr "") None None [] (history u) (loading u) "".

Definition setError (msg : string) (u : t) : t :=
  mk (text u) (alertEmail u) (result u) (probability u) (time u)
     (matchedKeywords u) (history u) (loading u) msg.

Definition setLoading (b : bool) (u : t) : t :=
  mk (text u) (alertEmail u) (result u) (probability u) (time u)
     (matchedKeywords u) (history u) b (error u).

Definition setHistory (data : Body) (u : t) : t :=
  mk (text u) (alertEmail u) (result u) (probability u) (time u)
     (matchedKeywords u) data (loading u) (error u).

(** [setResult(data.result); setProbability(data.spamProbability);
    setTime(data.createdAt); setMatchedKeywords(data.matchedKeywords || [])] *)
Definition setAnalysis (data : Body) (u : t) : t :=
  match data with
  | Checked _ r p k c =>
      mk (text u) (alertEmail u) (JsStr r) (Some p) (Some c) k
         (history u) (loading u) (error u)
  | _ =>
      mk (text u) (alertEmail u) JsUndefined None None []
         (history u) (loading u) (error u)
  end.

(** [data.message || "Something went wrong"] *)
Definition messageOf (data : Body) : string :=
  match data with
  | Message (String c m) => String c m
  | _ => "Something went wrong"
  end.

(** [res.ok] *)
Definition ok (resp : Response) : bool :=
  ((200 <=? status resp) && (status resp <=? 299))%nat.

(** [loadHistory]: the answer of GET /api/spam/history becomes the
    history, whatever its status; when the server is not reached the
    state stays. *)
Definition loadHistory (net : Net) (out : Outside) (uw : t * World) : t * World :=
  let (u, w) := uw in
  if historyReachable net then
    match historyHandler out w with
    | (Normal resp, w') => (setHistory (body resp) u, w')
    | (Throw _, w') => (u, w')
    end
  else (u, w).

Definition unreachable : string :=
  "Cannot reach server. Is backend running on port 5000?".

(** [handleCheck(withNotify)] *)
Definition handleCheck (withNotify : bool) (net : Net) (env : Env) (out : Outside)
  (uw : t * World) : t * World :=
  let (u, w) := uw in
  let u0 := cleared u in
  if negb (truthy (JsStr (trim (text u)))) then
    (setError "Please type or paste an email text." u0, w)
  else if withNotify && negb (truthy (JsStr (trim (alertEmail u)))) then
    (setError "Please enter an email address for alerts." u0, w)
  else if negb (checkReachable net) then
    (setLoading false (setError unreachable (setLoading true u0)), w)
  else
    let req := mkRequest (JsStr (text u))
                 (if withNotify then JsStr (trim (alertEmail u)) else JsNull) in
    match checkHandler env out req w with
    | (Normal resp, w') =>
        if ok resp
        then loadHistory net out
               (setLoading false (setAnalysis (body resp) (setLoading true u0)), w')
        else (setLoading false
                (setError (messageOf (body resp)) (setLoading true u0)), w')
    | (Throw _, w') =>
        (setLoading false (setError unreachable (setLoading true u0)), w')
    end.

End Page.

(** ** What the page shows of a probability *)

Module PageView.

(** [n] zeros *)
Fixpoint zeros (n : nat) : string :=
  match n with
  | O => ""
  | S k => String "0" (zeros k)
  end.

(** [Number.prototype.toFixed(f)] for a finite Number below 10^21 in
    magnitude: the integer [n] closest to [x * 10^f], the larger one
    on a tie, computed exactly; its digits, padded with zeros to [f + 1]
    digits, with the point before the last [f]; a minus sign for a
    negative Number.  NaN is "NaN"; the larger Numbers and the infinities
    are written by Number::toString, which is not modelled here
    ([None]). *)
Definition toFixed (f : nat) (x : float) : option string :=
  if PrimFloat.is_nan x then Some "NaN"
  else
    let q := toQ (PrimFloat.abs x) in
    let num := QArith_base.Qnum q in
    let den := Z.pos (QArith_base.Qden q) in
    if PrimFloat.is_infinity x || (10 ^ 21 * den <=? num)%Z then None
    else
      let n := ((2 * num * 10 ^ Z.of_nat f + den) / (2 * den))%Z in
      let m := decimal n in
      let m := zeros (S f - String.length m) ++ m in
      let k := String.length m in
      let body :=
        match f with
        | O => m
        | S _ => substring 0 (k - f) m ++ "." ++ substring (k - f) f m
        end in
      Some ((if PrimFloat.ltb x 0 then "-" else "") ++ body).

(** [spamPercent] of the page *)
Definition spamPercent (u : Page.t) : option string :=
  match Page.probability u with
  | Some p =>
      match toFixed 2 (PrimFloat.mul p 100) with
      | Some s => Some (s ++ "%")
      | None => None
      end
  | None => Some "--"
  end.

(** The "Spam %" cell of a history row:
    [(item.spamProbability * 100).toFixed(1)] and a percent sign *)
Definition historyPercent (item : SpamCheck.t) : option string :=
  match toFixed 1 (PrimFloat.mul (SpamCheck.spamProbability item) 100) with
  | Some s => Some (s ++ "%")
  | None => None
  end.

End PageView.

(** * Properties *)

(** ** Strings *)

Section StringFacts.

Lemma length_append (a b : string) :
  String.length (a ++ b) = String.length a + String.length b.
Proof. induction a as [|x a IH]; simpl; [reflexivity | now rewrite IH]. Qed.

Lemma toLowerCase_app (a b : string) :
  toLowerCase (a ++ b) = toLowerCase a ++ toLowerCase b.
Proof. induction a as [|x a IH]; simpl; [reflexivity | now rewrite IH]. Qed.

(** A split of the lowered text is the lowering of a split of the text. *)
Lemma toLowerCase_split (t a b : string) :
  toLowerCase t = a ++ b ->
  exists ta tb, t = ta ++ tb /\ toLowerCase ta = a /\ toLowerCase tb = b.
Proof.
  revert t; induction a as [|x a IH]; intros t H.
  - exists "", t. auto.
  - destruct t as [|c t]; simpl in H; [discriminate|].
    injection H as Hc Ht.
    destruct (IH _ Ht) as (ta & tb & -> & Ha & Hb).
    exists (String c ta), tb. simpl. now rewrite Hc, Ha.
Qed.

Lemma startsWith_spec (s w : string) :
  startsWith s w = true <-> exists post, s = w ++ post.
Proof.
  revert s; induction w as [|a w IH]; intros s.
  - split; [intros _; now exists s | intros _; destruct s; reflexivity].
  - destruct s as [|b s]; cbn [startsWith].
    + split; [discriminate | intros [post H]; discriminate].
    + rewrite andb_true_iff, Ascii.eqb_eq, IH. split.
      * intros [-> [post ->]]. now exists post.
      * intros [post H]. injection H as -> ->. split; [reflexivity | now exists post].
Qed.

Lemma includes_spec (s w : string) :
  includes s w = true <-> exists pre post, s = pre ++ w ++ post.
Proof.
  induction s as [|c s IH].
  - cbn [includes]. rewrite orb_false_r, startsWith_spec. split.
    + intros [post H]. now exists "", post.
    + intros (pre & post & H). destruct pre; [now exists post | discriminate].
  - cbn [includes]. rewrite orb_true_iff, startsWith_spec, IH. split.
    + intros [[post H] | (pre & post & H)].
      * now exists "", post.
      * exists (String c pre), post. simpl. now rewrite H.
    + intros (pre & post & H). destruct pre as [|x pre].
      * left. now exists post.
      * right. simpl in H. injection H as _ H. now exists pre, post.
Qed.

(** [includes] on the lowered text decides containment up to case, for
    a word that is its own lowercase form. *)
Lemma includes_lower_spec (text w : string) :
  toLowerCase w = w ->
  includes (toLowerCase text) w = true <-> ci_substring w text.
Proof.
  intros Hw. rewrite includes_spec. unfold ci_substring. rewrite Hw. split.
  - intros (pre & post & H).
    destruct (toLowerCase_split _ _ _ H) as (tp & rest & -> & _ & Hrest).
    destruct (toLowerCase_split _ _ _ Hrest) as (mid & tq & -> & Hmid & _).
    now exists tp, mid, tq.
  - intros (pre & mid & post & -> & Hmid).
    exists (toLowerCase pre), (toLowerCase post).
    now rewrite !toLowerCase_app, Hmid.
Qed.

Lemma substring_0_length (n : nat) (s : string) :
  n <= String.length s -> String.length (substring 0 n s) = n.
Proof.
  revert s; induction n as [|n IH]; intros s H.
  - destruct s; reflexivity.
  - destruct s as [|c s]; simpl in *; [lia|]. rewrite IH; lia.
Qed.

Lemma substring_0_prefix (n : nat) (s : string) :
  exists rest, s = substring 0 n s ++ rest.
Proof.
  revert s; induction n as [|n IH]; intros s.
  - exists s. destruct s; reflexivity.
  - destruct s as [|c s]; simpl.
    + now exists "".
    + destruct (IH s) as [rest H]. exists rest. now rewrite <- H.
Qed.

End StringFacts.

(** ** The classifier *)

Section Classifier.

Lemma fold_push_filter (lower : string) (l acc : list string) :
  fold_left (pushIfIncluded lower) l acc = (acc ++ filter (includes lower) l)%list.
Proof.
  revert acc; induction l as [|w l IH]; intros acc; simpl.
  - now rewrite app_nil_r.
  - rewrite IH. unfold pushIfIncluded.
    destruct (includes lower w); [now rewrite <- app_assoc | reflexivity].
Qed.

(** The loop collects the lexicon words the lowered text includes. *)
Lemma matched_filter (text : string) :
  matchedKeywords (analyzeSpam text)
  = filter (includes (toLowerCase text)) SPAM_KEYWORDS.
Proof. unfold analyzeSpam. cbn [matchedKeywords]. apply fold_push_filter. Qed.

Lemma filter_length_le {A} (f : A -> bool) (l : list A) :
  List.length (filter f l) <= List.length l.
Proof.
  induction l as [|x l IH]; simpl; [lia|]. destruct (f x); simpl; lia.
Qed.

Lemma score_le_12 (text : string) :
  List.length (matchedKeywords (analyzeSpam text)) <= 12.
Proof. rewrite matched_filter. apply (filter_length_le _ SPAM_KEYWORDS). Qed.

Lemma keywords_lowercase : Forall (fun w => toLowerCase w = w) SPAM_KEYWORDS.
Proof. repeat constructor. Qed.

Lemma keywords_NoDup : NoDup SPAM_KEYWORDS.
Proof.
  unfold SPAM_KEYWORDS.
  repeat (constructor; [simpl; intuition discriminate|]). constructor.
Qed.

Lemma probability_eq (text : string) :
  probability (analyzeSpam text)
  = Math_min 1 (PrimFloat.div
                  (ofLength (List.length (matchedKeywords (analyzeSpam text)))) 5).
Proof. reflexivity. Qed.

Lemma result_eq (text : string) :
  result (analyzeSpam text)
  = if ge (probability (analyzeSpam text)) 0.5 then "spam" else "not_spam".
Proof. reflexivity. Qed.

Lemma result_spam_iff (text : string) :
result (analyzeSpam text) = "spam"
<-> ge (probability (analyzeSpam text)) 0.5 = true.
Proof.
rewrite result_eq.
destruct (ge (probability (analyzeSpam text)) 0.5);
  split; intros H; (reflexivity || discriminate).
Qed.

End Classifier.

(** ** Scores and probabilities

    A score is at most 12, so a statement about the probability of every
    score is settled by evaluating the binary64 operations at each one. *)

Section Scores.

Ltac each_score n :=
  do 13 (destruct n as [|n]; [vm_compute; reflexivity|]); exfalso; lia.

Lemma probabilityOf_nonneg (n : nat) :
  n <= 12 -> PrimFloat.leb 0 (probabilityOf n) = true.
Proof. intros H. each_score n. Qed.

Lemma probabilityOf_le_1 (n : nat) :
  n <= 12 -> PrimFloat.leb (probabilityOf n) 1 = true.
Proof. intros H. each_score n. Qed.

Lemma probabilityOf_is_1 (n : nat) :
  n <= 12 -> PrimFloat.eqb (probabilityOf n) 1 = (5 <=? n)%nat.
Proof. intros H. each_score n. Qed.

Lemma probabilityOf_capped (n : nat) :
  n <= 12 ->
  probabilityOf n = if (5 <=? n)%nat then 1%float else PrimFloat.div (ofLength n) 5.
Proof. intros H. each_score n. Qed.

(** The Number is the exact min(1, n/5) up to the rounding of the
    division. *)
Lemma probabilityOf_exact (n : nat) :
  n <= 12 ->
  QArith_base.Qle
    (Qabs.Qabs (QArith_base.Qminus (toQ (probabilityOf n)) (exactProbability n)))
    halfUlp.
Proof.
  intros H. apply QArith_base.Qle_bool_iff. each_score n.
Qed.

Lemma probabilityOf_half (n : nat) :
  n <= 12 -> ge (probabilityOf n) 0.5 = (3 <=? n)%nat.
Proof. intros H. each_score n. Qed.

Lemma probabilityOf_forty (n : nat) :
  n <= 12 -> ge (PrimFloat.mul (probabilityOf n) 100) 40 = (2 <=? n)%nat.
Proof. intros H. each_score n. Qed.

End Scores.

(** C1: for every text the probability is [Math.min(1, n / 5)] with [n]
    the number of matched indicators (the quotient itself below 5, and 1
    from 5 on), which is the exact min(1, n/5) up to the rounding of the
    division; it lies between 0 and 1, and it is 1 exactly when [n >= 5]. *)
Theorem probability_min_1_fifth (text : string) :
  let r := analyzeSpam text in
  let n := List.length (matchedKeywords r) in
  probability r = Math_min 1 (PrimFloat.div (ofLength n) 5) /\
  (n < 5 -> probability r = PrimFloat.div (ofLength n) 5) /\
  QArith_base.Qle
    (Qabs.Qabs (QArith_base.Qminus (toQ (probability r)) (exactProbability n)))
    halfUlp /\
  PrimFloat.leb 0 (probability r) = true /\
  PrimFloat.leb (probability r) 1 = true /\
  (PrimFloat.eqb (probability r) 1 = true <-> 5 <= n).
Proof.
  intros r n.
  assert (Hn : n <= 12) by apply score_le_12.
  assert (Hp : probability r = probabilityOf n) by apply probability_eq.
  rewrite Hp. repeat split.
  - intros Hlt. rewrite (probabilityOf_capped n Hn).
    destruct (Nat.leb_spec 5 n); [lia | reflexivity].
  - now apply probabilityOf_exact.
  - now apply probabilityOf_nonneg.
  - now apply probabilityOf_le_1.
  - rewrite (probabilityOf_is_1 n Hn). apply Nat.leb_le.
  - rewrite (probabilityOf_is_1 n Hn). apply Nat.leb_le.
Qed.

(** C2: the verdict of every analysis is "spam" exactly when its
    probability is at least 0.5, and "not_spam" otherwise. *)
Theorem verdict_spam_iff_half (text : string) :
  let r := analyzeSpam text in
  (result r = "spam" <-> ge (probability r) 0.5 = true) /\
  (result r = "not_spam" <-> ge (probability r) 0.5 = false).
Proof.
  intros r. unfold r. rewrite result_eq.
  destruct (ge (probability (analyzeSpam text)) 0.5);
    split; split; intros H; (reflexivity || discriminate).
Qed.

(** C3: the matched indicators are exactly the lexicon indicators that
    occur in the text up to letter case, each once, in lexicon order: the
    list is the lexicon with the indicators that do not occur removed. *)
Theorem matched_indicators_exact (text : string) :
  let m := matchedKeywords (analyzeSpam text) in
  (forall w, In w m <-> In w SPAM_KEYWORDS /\ ci_substring w text) /\
  NoDup m /\
  m = filter (fun w => if in_dec string_dec w m then true else false) SPAM_KEYWORDS.
Proof.
  intros m.
  assert (Hm : m = filter (includes (toLowerCase text)) SPAM_KEYWORDS)
    by apply matched_filter.
  assert (Hin : forall w, In w m <-> In w SPAM_KEYWORDS /\ ci_substring w text).
  { intros w. rewrite Hm, filter_In. split; intros [Hw H]; split; trivial.
    - apply includes_lower_spec; trivial.
      exact (proj1 (Forall_forall _ _) keywords_lowercase w Hw).
    - apply includes_lower_spec; trivial.
      exact (proj1 (Forall_forall _ _) keywords_lowercase w Hw). }
  split; [exact Hin|]. split.
  - rewrite Hm. apply NoDup_filter, keywords_NoDup.
  - rewrite Hm at 1. apply filter_ext_in. intros w Hw.
    destruct (in_dec string_dec w m) as [Hy | Hn].
    + rewrite Hm, filter_In in Hy. tauto.
    + destruct (includes (toLowerCase text) w) eqn:E; [|reflexivity].
      exfalso. apply Hn. rewrite Hm, filter_In. tauto.
Qed.

(** Lexicon order, not text order; one entry for a repeated indicator; an
    indicator inside a longer word counts. *)
Example matched_lexicon_order :
  matchedKeywords (analyzeSpam "CASH for free") = ["free"; "cash"].
Proof. reflexivity. Qed.

Example matched_once :
  matchedKeywords (analyzeSpam "free, Free, FREE") = ["free"].
Proof. reflexivity. Qed.

Example matched_inside_word :
  matchedKeywords (analyzeSpam "a carefree twin") = ["free"; "win"].
Proof. reflexivity. Qed.

Example analyzeSpam_meeting :
  analyzeSpam "Let's meet tomorrow at 3pm for the project review."
  = mkAnalysis "not_spam" 0 [].
Proof. vm_compute. reflexivity. Qed.

(** C9: the congratulations message matches congratulations, winner,
    free, prize and click here (and win), has probability 1 and is spam. *)
Theorem scenario_congratulations :
  let r := analyzeSpam
             "Congratulations! You are a WINNER of a FREE prize. Click here now!" in
  matchedKeywords r
    = ["free"; "win"; "winner"; "prize"; "congratulations"; "click here"] /\
  incl ["congratulations"; "winner"; "free"; "prize"; "click here"]
       (matchedKeywords r) /\
  probability r = 1%float /\
  result r = "spam".
Proof.
  intros r.
  assert (Hm : matchedKeywords r
               = ["free"; "win"; "winner"; "prize"; "congratulations"; "click here"])
    by reflexivity.
  split; [exact Hm|]. split.
  - rewrite Hm. intros w Hw. simpl in Hw |- *. tauto.
  - split; vm_compute; reflexivity.
Qed.

(** ** The notification gate *)

Section Gate.

Lemma truthy_js_or (a b : JsValue) : truthy (js_or a b) = truthy a || truthy b.
Proof. unfold js_or. destruct (truthy a) eqn:E; [exact E | reflexivity]. Qed.

Lemma truthy_js_and_bool (a : JsValue) (c : bool) :
  truthy (js_and a (JsBool c)) = truthy a && c.
Proof. unfold js_and. destruct (truthy a) eqn:E; [reflexivity | exact E]. Qed.

Lemma truthy_shouldNotify (env : Env) (notifyEmail : JsValue) (p : float) :
  truthy (shouldNotify env notifyEmail p)
  = (truthy notifyEmail || truthy (envValue (ALERT_DEFAULT_TO env)))
    && ge (PrimFloat.mul p 100) 40.
Proof. unfold shouldNotify. now rewrite truthy_js_and_bool, truthy_js_or. Qed.

End Gate.

(** C4: a message is to be sent exactly when the caller gave a recipient
    or a default one is configured, and [probability * 100 >= 40]; it goes
    to the caller's recipient when there is one, else to the default; with
    a caller's recipient, 0.39 does not send and 0.40 does. *)
Theorem notification_gate (env : Env) (notifyEmail : JsValue) (p : float) :
  let dflt := envValue (ALERT_DEFAULT_TO env) in
  (truthy (shouldNotify env notifyEmail p) = true <->
   (truthy notifyEmail = true \/ truthy dflt = true) /\
   ge (PrimFloat.mul p 100) 40 = true) /\
  (forall text kws,
     to (mailOptions env notifyEmail text p kws)
     = if truthy notifyEmail then notifyEmail else dflt) /\
  (truthy notifyEmail = false -> truthy dflt = false ->
   truthy (shouldNotify env notifyEmail p) = false) /\
  (truthy notifyEmail = true ->
   truthy (shouldNotify env notifyEmail 0.39) = false /\
   truthy (shouldNotify env notifyEmail 0.4) = true).
Proof.
  intros dflt. repeat split.
  - rewrite truthy_shouldNotify in H. apply andb_true_iff in H.
    destruct H as [H _]. now apply orb_true_iff in H.
  - rewrite truthy_shouldNotify in H. now apply andb_true_iff in H.
  - intros [Hr Hp]. rewrite truthy_shouldNotify. apply andb_true_iff. split.
    + now apply orb_true_iff.
    + exact Hp.
  - intros Hn Hd. rewrite truthy_shouldNotify. fold dflt. now rewrite Hn, Hd.
  - rewrite truthy_shouldNotify, H. reflexivity.
  - rewrite truthy_shouldNotify, H. reflexivity.
Qed.

(** C10: a text with exactly two matched indicators is "not_spam" with
    probability 0.4 and still notifies a given recipient; with a recipient
    given, a message is to be sent exactly from two matched indicators on,
    and the verdict is "spam" exactly from three on. *)
Theorem notify_below_spam_verdict :
  (exists text,
     let r := analyzeSpam text in
     List.length (matchedKeywords r) = 2 /\
     result r = "not_spam" /\
     probability r = 0.4%float /\
     forall env notifyEmail,
       truthy notifyEmail = true ->
       truthy (shouldNotify env notifyEmail (probability r)) = true) /\
  (forall text env notifyEmail,
     truthy notifyEmail = true ->
     let r := analyzeSpam text in
     let n := List.length (matchedKeywords r) in
     (n = 2 -> result r = "not_spam" /\ probability r = 0.4%float) /\
     (truthy (shouldNotify env notifyEmail (probability r)) = true <-> 2 <= n) /\
     (result r = "spam" <-> 3 <= n)).
Proof.
  split.
  - exists "free cash". repeat split.
    intros env notifyEmail H. rewrite truthy_shouldNotify, H. reflexivity.
  - intros text env notifyEmail H r n.
    assert (Hn : n <= 12) by apply score_le_12.
    assert (Hp : probability r = probabilityOf n) by apply probability_eq.
    assert (Hr : result r = if ge (probabilityOf n) 0.5 then "spam" else "not_spam").
    { rewrite <- Hp. apply result_eq. }
    split; [|split].
    + intros E. rewrite Hr, Hp, E. split; reflexivity.
    + rewrite truthy_shouldNotify, H, Hp, (probabilityOf_forty n Hn).
      cbn [orb andb]. apply Nat.leb_le.
    + rewrite Hr, (probabilityOf_half n Hn).
      destruct (Nat.leb_spec 3 n); split; intros; (reflexivity || lia || discriminate).
Qed.

(** ** The POST handler *)

Section CheckHandler.

Variables (env : Env) (out : Outside).

Lemma textMissing_blank (s : string) :
  trim s = "" -> textMissing (JsStr s) = Normal true.
Proof.
  intros H. unfold textMissing. destruct s as [|c s]; [reflexivity|].
  cbn [truthy negb]. now rewrite H.
Qed.

(** A text that passes the check is a string. *)
Lemma textMissing_false (v : JsValue) :
  textMissing v = Normal false ->
  exists s, v = JsStr s /\ trim s <> "".
Proof.
  unfold textMissing. destruct v as [| |b|x|s|]; cbn [truthy negb].
  - discriminate.
  - discriminate.
  - destruct b; discriminate.
  - destruct (negb _); discriminate.
  - destruct s as [|c s]; cbn [negb]; [discriminate|].
    intros H. exists (String c s). split; [reflexivity|].
    intros E. rewrite E in H. discriminate.
  - discriminate.
Qed.

(** The whole effect of a request whose text passes the check and whose
    record is written. *)
Lemma checkHandler_persisted (req : Request) (w : World)
  (text : string) (id : ObjectId) (now : Z) :
  req_text req = JsStr text ->
  textMissing (req_text req) = Normal false ->
  insert out = Some (id, now) ->
  let a := analyzeSpam text in
  let doc := SpamCheck.mk id text (result a) (probability a)
                          (matchedKeywords a) now in
  let mail := mailOptions env (req_notifyEmail req) text
                          (probability a) (matchedKeywords a) in
  checkHandler env out req w
  = (Normal (mkResponse 200
               (Checked id (result a) (probability a) (matchedKeywords a) now)),
     if truthy (shouldNotify env (req_notifyEmail req) (probability a))
     then mkWorld (collection w ++ [doc]) (attempts w ++ [mail])
                  (console w ++
                     [match sendMail out mail with
                      | Normal info => EmailSent info
                      | Throw e => AlertEmailError (message e)
                      end])
     else mkWorld (collection w ++ [doc]) (attempts w) (console w))%list.
Proof.
  intros Ht Hm Hi a doc mail.
  unfold checkHandler, try_catch, bind, lift, create, sendAlertEmail,
    transporter_sendMail, log, ret.
  rewrite Hm, Ht. cbn [analyze]. rewrite Hi. cbn [probability matchedKeywords result].
  fold a. fold mail.
  destruct (truthy (shouldNotify env (req_notifyEmail req) (probability a))).
  - cbn [collection attempts console SpamCheck._id SpamCheck.createdAt].
    destruct (sendMail out mail); reflexivity.
  - reflexivity.
Qed.

(** Whatever the request and the collaborators, the handler leaves the
    collection as it was or adds one record to it, made of the text and
    its analysis. *)
Lemma checkHandler_appends (req : Request) (w : World) :
  collection (snd (checkHandler env out req w)) = collection w \/
  exists text id now,
    req_text req = JsStr text /\
    collection (snd (checkHandler env out req w))
    = (collection w ++
         [SpamCheck.mk id text (result (analyzeSpam text))
                       (probability (analyzeSpam text))
                       (matchedKeywords (analyzeSpam text)) now])%list.
Proof.
  destruct (textMissing (req_text req)) as [[|]|e] eqn:Hm.
  - left. unfold checkHandler, try_catch, bind, lift, ret. now rewrite Hm.
  - destruct (textMissing_false _ Hm) as (text & Ht & _).
    destruct (insert out) as [[id now]|] eqn:Hi.
    + right. exists text, id, now. split; [exact Ht|].
      rewrite (checkHandler_persisted req w text id now Ht Hm Hi).
      cbn [snd].
      destruct (truthy (shouldNotify env (req_notifyEmail req)
                          (probability (analyzeSpam text)))); reflexivity.
    + left. unfold checkHandler, try_catch, bind, lift, create, log, ret.
      rewrite Hm, Ht. cbn [analyze]. now rewrite Hi.
  - left. unfold checkHandler, try_catch, bind, lift, log, ret. now rewrite Hm.
Qed.

End CheckHandler.

(** C5: when the text passes the check and the record is written, the
    response is the 200 response with the written record whatever the
    transporter does; a rejected send is caught and logged, and the record
    stays written. *)
Theorem notification_failure_absorbed
  (env : Env) (out : Outside) (req : Request) (w : World) (id : ObjectId) (now : Z) :
  textMissing (req_text req) = Normal false ->
  insert out = Some (id, now) ->
  exists text,
    req_text req = JsStr text /\
    let a := analyzeSpam text in
    let doc := SpamCheck.mk id text (result a) (probability a)
                            (matchedKeywords a) now in
    let ok := Normal (mkResponse 200
                 (Checked id (result a) (probability a) (matchedKeywords a) now)) in
    (forall transport,
       fst (checkHandler env (withTransport out transport) req w) = ok /\
       collection (snd (checkHandler env (withTransport out transport) req w))
       = (collection w ++ [doc])%list) /\
    fst (checkHandler env out req w) = ok /\
    (forall e,
       truthy (shouldNotify env (req_notifyEmail req) (probability a)) = true ->
       sendMail out (mailOptions env (req_notifyEmail req) text
                                 (probability a) (matchedKeywords a)) = Throw e ->
       console (snd (checkHandler env out req w))
       = (console w ++ [AlertEmailError (message e)])%list).
Proof.
  intros Hm Hi.
  destruct (textMissing_false _ Hm) as (text & Ht & _).
  exists text. split; [exact Ht|]. intros a doc ok. split; [|split].
  - intros transport.
    rewrite (checkHandler_persisted env (withTransport out transport)
               req w text id now Ht Hm Hi).
    fold a. cbn [fst snd].
    split; [reflexivity|].
    destruct (truthy (shouldNotify env (req_notifyEmail req) (probability a)));
      reflexivity.
  - now rewrite (checkHandler_persisted env out req w text id now Ht Hm Hi).
  - intros e Hs He.
    rewrite (checkHandler_persisted env out req w text id now Ht Hm Hi).
    fold a. rewrite Hs. cbn [snd console]. now rewrite He.
Qed.

(** The request "free cash" with a recipient, a working store and a
    transporter that rejects. *)
Lemma notification_failure_absorbed_witness :
  fst (checkHandler (mkEnv None None)
         (mkOutside (Some ("id1", 5%Z)) (fun _ => Throw (Rejected "timeout"))
                    scanOrderFind)
         (mkRequest (JsStr "free cash") (JsStr "ops@example.org"))
         (mkWorld [] [] []))
  = Normal (mkResponse 200 (Checked "id1" "not_spam" 0.4 ["free"; "cash"] 5%Z)).
Proof.
  destruct (notification_failure_absorbed (mkEnv None None)
              (mkOutside (Some ("id1", 5%Z)) (fun _ => Throw (Rejected "timeout"))
                         scanOrderFind)
              (mkRequest (JsStr "free cash") (JsStr "ops@example.org"))
              (mkWorld [] [] []) "id1" 5%Z)
    as (text & Ht & _ & Hok & _).
  - reflexivity.
  - reflexivity.
  - injection Ht as <-. exact Hok.
Defined.

(** The records a request leaves in the collection keep the verdict
    invariant: the handler only ever adds the analysis of a text. *)
Lemma checkHandler_keeps_verdicts
  (env : Env) (out : Outside) (req : Request) (w : World) :
  Forall verdictConsistent (collection w) ->
  Forall verdictConsistent (collection (snd (checkHandler env out req w))).
Proof.
  intros H.
  destruct (checkHandler_appends env out req w) as [-> | (text & id & now & _ & ->)];
    [exact H|].
  apply Forall_app. split; [exact H|]. constructor; [|constructor].
  unfold verdictConsistent. cbn [SpamCheck.result SpamCheck.spamProbability].
  apply result_spam_iff.
Qed.

(** A string trims to the empty string exactly when it holds white space
    only. *)
Lemma trim_empty_iff (s : string) :
  trim s = "" <-> forallb isSpace (list_ascii_of_string s) = true.
Proof.
  unfold trim. induction s as [|c s IH]; cbn [trimStart list_ascii_of_string forallb].
  - split; reflexivity.
  - destruct (isSpace c) eqn:E.
    + exact IH.
    + cbn [trimEnd]. rewrite E. split; [|discriminate].
      destruct (trimEnd s); discriminate.
Qed.

(** C6: a text that is empty after trimming is answered with 400 and a
    message, and nothing else happens: the collection, the messages handed
    to the transporter and the console are as before. *)
Theorem blank_text_rejected
  (env : Env) (out : Outside) (s : string) (notifyEmail : JsValue) (w : World) :
  trim s = "" ->
  checkHandler env out (mkRequest (JsStr s) notifyEmail) w
  = (Normal (mkResponse 400 (Message "Text is required")), w).
Proof.
  intros H. unfold checkHandler, try_catch, bind, lift, ret.
  cbn [req_text]. now rewrite (textMissing_blank s H).
Qed.

Lemma blank_text_rejected_witness :
  checkHandler (mkEnv None (Some "ops@example.org")) scanOrderServer
               (mkRequest (JsStr "   ") (JsStr "me@example.org")) tieWorld
  = (Normal (mkResponse 400 (Message "Text is required")), tieWorld).
Proof. apply blank_text_rejected. reflexivity. Defined.

(** A missing text is answered the same way. *)
Lemma missing_text_rejected
  (env : Env) (out : Outside) (notifyEmail : JsValue) (w : World) :
  checkHandler env out (mkRequest JsUndefined notifyEmail) w
  = (Normal (mkResponse 400 (Message "Text is required")), w).
Proof. reflexivity. Qed.

(** ** The query and the GET handler *)

Section Query.

Lemma insertDesc_perm (d : SpamCheck.t) (l : list SpamCheck.t) :
  Permutation (insertDesc d l) (d :: l).
Proof.
  induction l as [|x l IH]; simpl; [reflexivity|].
  destruct (SpamCheck.createdAt x <=? SpamCheck.createdAt d)%Z; [reflexivity|].
  rewrite IH. apply perm_swap.
Qed.

Lemma sortDesc_perm (coll : list SpamCheck.t) : Permutation (sortDesc coll) coll.
Proof.
  induction coll as [|d coll IH]; simpl; [reflexivity|].
  rewrite insertDesc_perm. now constructor.
Qed.

Lemma insertDesc_sorted (d : SpamCheck.t) (l : list SpamCheck.t) :
  StronglySorted newerOrEqual l -> StronglySorted newerOrEqual (insertDesc d l).
Proof.
  induction 1 as [|x l Hs IH Hx]; simpl.
  - repeat constructor.
  - destruct (Z.leb_spec (SpamCheck.createdAt x) (SpamCheck.createdAt d)) as [Hle | Hlt].
    + constructor; [now constructor|].
      constructor; [exact Hle|].
      eapply Forall_impl; [|exact Hx]. unfold newerOrEqual. intros y Hy. lia.
    + constructor; [exact IH|].
      apply (Permutation_Forall (Permutation_sym (insertDesc_perm d l))).
      constructor; [unfold newerOrEqual; lia | exact Hx].
Qed.

Lemma sortDesc_sorted (coll : list SpamCheck.t) :
  StronglySorted newerOrEqual (sortDesc coll).
Proof.
  induction coll as [|d coll IH]; simpl; [constructor|].
  now apply insertDesc_sorted.
Qed.

Lemma insertByCreatedAt_perm (first : TieOrder) (d : SpamCheck.t)
  (l : list SpamCheck.t) :
  Permutation (insertByCreatedAt first d l) (d :: l).
Proof.
  induction l as [|x l IH]; simpl; [reflexivity|].
  destruct ((SpamCheck.createdAt x <? SpamCheck.createdAt d)%Z
            || ((SpamCheck.createdAt x =? SpamCheck.createdAt d)%Z && first d x))%bool;
    [reflexivity|].
  rewrite IH. apply perm_swap.
Qed.

Lemma sortCreatedAtDesc_perm (first : TieOrder) (coll : list SpamCheck.t) :
  Permutation (sortCreatedAtDesc first coll) coll.
Proof.
  induction coll as [|d coll IH]; simpl; [reflexivity|].
  rewrite insertByCreatedAt_perm. now constructor.
Qed.

Lemma insertByCreatedAt_sorted (first : TieOrder) (d : SpamCheck.t)
  (l : list SpamCheck.t) :
  StronglySorted newerOrEqual l ->
  StronglySorted newerOrEqual (insertByCreatedAt first d l).
Proof.
  induction 1 as [|x l Hs IH Hx]; simpl.
  - repeat constructor.
  - destruct ((SpamCheck.createdAt x <? SpamCheck.createdAt d)%Z
              || ((SpamCheck.createdAt x =? SpamCheck.createdAt d)%Z && first d x))%bool
      eqn:E.
    + assert (Hle : (SpamCheck.createdAt x <= SpamCheck.createdAt d)%Z).
      { apply orb_true_iff in E. destruct E as [E | E].
        - apply Z.ltb_lt in E. lia.
        - apply andb_true_iff in E. destruct E as [E _].
          apply Z.eqb_eq in E. lia. }
      constructor; [now constructor|].
      constructor; [exact Hle|].
      eapply Forall_impl; [|exact Hx]. unfold newerOrEqual. intros y Hy. lia.
    + assert (Hge : (SpamCheck.createdAt d <= SpamCheck.createdAt x)%Z).
      { apply orb_false_iff in E. destruct E as [E _].
        apply Z.ltb_ge in E. exact E. }
      constructor; [exact IH|].
      apply (Permutation_Forall (Permutation_sym (insertByCreatedAt_perm first d l))).
      constructor; [exact Hge | exact Hx].
Qed.

Lemma sortCreatedAtDesc_sorted (first : TieOrder) (coll : list SpamCheck.t) :
  StronglySorted newerOrEqual (sortCreatedAtDesc first coll).
Proof.
  induction coll as [|d coll IH]; simpl; [constructor|].
  now apply insertByCreatedAt_sorted.
Qed.

(** The query sorts and limits: whatever the database's order between
    equal keys, its answer is the first ten of an arrangement of the
    collection in which [createdAt] never increases. *)
Lemma find_RecentOf (out : Outside) (coll docs : list SpamCheck.t) :
  find out coll = Some docs -> RecentOf 10 coll docs.
Proof.
  unfold find. destruct (ties out) as [first|]; [|discriminate].
  intros H. injection H as <-.
  exists (sortCreatedAtDesc first coll).
  split; [apply sortCreatedAtDesc_perm|].
  split; [apply sortCreatedAtDesc_sorted | reflexivity].
Qed.

(** The scan-order server answers as the query asks, on every
    collection. *)
Lemma scanOrder_RecentOf (coll : list SpamCheck.t) :
  RecentOf 10 coll (firstn 10 (sortDesc coll)).
Proof.
  exists (sortDesc coll). split; [apply sortDesc_perm|].
  split; [apply sortDesc_sorted | reflexivity].
Qed.

Lemma StronglySorted_app_inv {A} (R : A -> A -> Prop) (l1 l2 : list A) :
  StronglySorted R (l1 ++ l2) ->
  StronglySorted R l1 /\ StronglySorted R l2 /\
  forall x y, In x l1 -> In y l2 -> R x y.
Proof.
  induction l1 as [|a l1 IH]; simpl; intros H.
  - repeat split; [constructor | exact H | intros x y []].
  - inversion H as [|? ? Hs Ha]; subst.
    destruct (IH Hs) as (H1 & H2 & H12).
    rewrite Forall_app in Ha. destruct Ha as [Ha1 Ha2].
    repeat split; [now constructor | exact H2 |].
    intros x y [<- | Hx] Hy.
    + exact (proj1 (Forall_forall _ _) Ha2 y Hy).
    + now apply H12.
Qed.

Lemma StronglySorted_view (l : list SpamCheck.t) :
  StronglySorted newerOrEqual l -> StronglySorted newerOrEqual (map view l).
Proof.
  induction 1 as [|x l Hs IH Hx]; simpl; constructor; [exact IH|].
  rewrite Forall_map. exact Hx.
Qed.

(** What every answer to the query satisfies. *)
Lemma RecentOf_facts (n : nat) (coll docs : list SpamCheck.t) :
  RecentOf n coll docs ->
  List.length docs = Nat.min n (List.length coll) /\
  StronglySorted newerOrEqual docs /\
  exists rest,
    Permutation (docs ++ rest) coll /\
    forall x y, In x docs -> In y rest -> newerOrEqual x y.
Proof.
  intros (arranged & Hperm & Hsorted & ->).
  rewrite <- (firstn_skipn n arranged) in Hsorted.
  destruct (StronglySorted_app_inv _ _ _ Hsorted) as (H1 & _ & H12).
  split; [|split].
  - now rewrite length_firstn, (Permutation_length Hperm).
  - exact H1.
  - exists (skipn n arranged). split; [|exact H12].
    now rewrite firstn_skipn.
Qed.

Lemma viewText_long (t : string) :
  80 < String.length t ->
  viewText t = substring 0 77 t ++ "..." /\ String.length (viewText t) = 80.
Proof.
  intros H. unfold viewText, slice.
  destruct (Nat.ltb_spec 80 (String.length t)) as [_ | Hle]; [|lia].
  split; [reflexivity|].
  rewrite length_append, substring_0_length by lia. reflexivity.
Qed.

Lemma viewText_short (t : string) :
  String.length t <= 80 -> viewText t = t.
Proof.
  intros H. unfold viewText.
  destruct (Nat.ltb_spec 80 (String.length t)); [lia | reflexivity].
Qed.

(** The handler reads the collection and changes nothing in it. *)
Lemma historyHandler_collection (out : Outside) (w : World) :
  collection (snd (historyHandler out w)) = collection w.
Proof.
  unfold historyHandler, try_catch, bind, findRecent, log, ret.
  destruct (find out (collection w)); reflexivity.
Qed.

Lemma historyHandler_found (out : Outside) (w : World) (docs : list SpamCheck.t) :
  find out (collection w) = Some docs ->
  historyHandler out w = (Normal (mkResponse 200 (History (map view docs))), w).
Proof.
  intros H. unfold historyHandler, try_catch, bind, findRecent, ret.
  now rewrite H.
Qed.

End Query.

(** C7, as the code has it: when the query is answered, the history holds
    the views of the answer, which are [min 10 (number stored)] records, at
    most 10, with [createdAt] never increasing; no record left out is newer
    than a record shown; and the world is as before, the store included.
    The order between records of equal [createdAt] is the database's. *)
Theorem history_newest_first (out : Outside) (w : World) (docs : list SpamCheck.t) :
  find out (collection w) = Some docs ->
  fst (historyHandler out w) = Normal (mkResponse 200 (History (map view docs))) /\
  List.length (map view docs) = Nat.min 10 (List.length (collection w)) /\
  List.length (map view docs) <= 10 /\
  StronglySorted newerOrEqual (map view docs) /\
  (exists rest,
     Permutation (docs ++ rest) (collection w) /\
     forall x y, In x docs -> In y rest -> newerOrEqual x y) /\
  snd (historyHandler out w) = w.
Proof.
  intros Hf.
  destruct (RecentOf_facts _ _ _ (find_RecentOf _ _ _ Hf)) as (Hlen & Hs & Hrest).
  rewrite (historyHandler_found out w docs Hf). cbn [fst snd].
  rewrite length_map, Hlen.
  repeat split; try lia.
  - now apply StronglySorted_view.
  - exact Hrest.
Qed.

Lemma history_newest_first_witness :
  fst (historyHandler scanOrderServer
         (mkWorld [tieB; SpamCheck.mk "c" "win" "not_spam" 0.2 ["win"] 2000] [] []))
  = Normal (mkResponse 200
              (History [SpamCheck.mk "c" "win" "not_spam" 0.2 ["win"] 2000; tieB])).
Proof.
  refine (proj1 (history_newest_first scanOrderServer
            (mkWorld [tieB; SpamCheck.mk "c" "win" "not_spam" 0.2 ["win"] 2000] [] [])
            [SpamCheck.mk "c" "win" "not_spam" 0.2 ["win"] 2000; tieB] _)).
  reflexivity.
Defined.

(** C7 as stated fails: [tieA] and [tieB] have the same [createdAt], the
    server may answer them in scan order, the handler then shows [tieA]
    first although [tieB] was inserted last, and no answer is strictly
    decreasing in [createdAt]. *)
Lemma history_ties_scan_order :
  RecentOf 10 (collection tieWorld) [tieA; tieB] /\
  fst (historyHandler scanOrderServer tieWorld)
  = Normal (mkResponse 200 (History [view tieA; view tieB])) /\
  map view (recentList_spec 10 (collection tieWorld)) = [view tieB; view tieA] /\
  [view tieA; view tieB] <> map view (recentList_spec 10 (collection tieWorld)) /\
  (forall docs,
     RecentOf 10 (collection tieWorld) docs ->
     ~ StronglySorted
         (fun a b => (SpamCheck.createdAt b < SpamCheck.createdAt a)%Z) docs).
Proof.
  split; [exact (scanOrder_RecentOf (collection tieWorld))|].
  split; [reflexivity|]. split; [reflexivity|]. split.
  - intros H. discriminate H.
  - intros docs Hr Hs.
    destruct (RecentOf_facts _ _ _ Hr) as (Hlen & _ & rest & Hperm & _).
    cbn in Hlen.
    destruct docs as [|x [|y [|z docs]]]; try discriminate Hlen.
    assert (Hx : In x [tieA; tieB]).
    { apply (Permutation_in x Hperm). simpl. auto. }
    assert (Hy : In y [tieA; tieB]).
    { apply (Permutation_in y Hperm). simpl. auto. }
    inversion Hs as [|? ? _ Hall]; subst.
    inversion Hall as [|? ? Hlt _]; subst.
    simpl in Hx, Hy.
    destruct Hx as [<- | [<- | []]]; destruct Hy as [<- | [<- | []]];
      simpl in Hlt; lia.
Qed.

(** The code leaves the order of [tieA] and [tieB] to the database: one
    that returns equal keys in scan order shows [tieA] first, one that
    returns the latest first shows [tieB] first. *)
Example history_ties_either_order :
  fst (historyHandler (mkOutside None (fun _ => Normal "m1") (Some scanOrder))
                      tieWorld)
  = Normal (mkResponse 200 (History [view tieA; view tieB])) /\
  fst (historyHandler (mkOutside None (fun _ => Normal "m1") (Some latestFirst))
                      tieWorld)
  = Normal (mkResponse 200 (History [view tieB; view tieA])).
Proof. split; reflexivity. Qed.

(** C8: a view shows a text longer than 80 characters as its first 77
    characters and "...", 80 characters in all, and a text of at most 80
    characters as it is; the handler shows the views of the documents
    found and leaves the stored documents, texts included, as they were. *)
Theorem history_view_truncation (d : SpamCheck.t) :
  let t := SpamCheck.text d in
  let v := SpamCheck.text (view d) in
  (80 < String.length t ->
   v = substring 0 77 t ++ "..." /\
   String.length (substring 0 77 t) = 77 /\
   (exists rest, t = substring 0 77 t ++ rest) /\
   String.length v = 80) /\
  (String.length t <= 80 -> v = t) /\
  (forall out w docs,
     find out (collection w) = Some docs ->
     fst (historyHandler out w) = Normal (mkResponse 200 (History (map view docs)))) /\
  (forall out w, collection (snd (historyHandler out w)) = collection w) /\
  (forall env out req w text id now,
     req_text req = JsStr text ->
     textMissing (req_text req) = Normal false ->
     insert out = Some (id, now) ->
     exists doc,
       collection (snd (checkHandler env out req w)) = (collection w ++ [doc])%list /\
       SpamCheck.text doc = text).
Proof.
  intros t v. split; [|split; [|split; [|split]]].
  - intros H. destruct (viewText_long t H) as [Hv Hl].
    split; [exact Hv|]. split; [apply substring_0_length; lia|].
    split; [apply substring_0_prefix | exact Hl].
  - apply viewText_short.
  - intros out w docs H. now rewrite (historyHandler_found out w docs H).
  - apply historyHandler_collection.
  - intros env out req w text id now Ht Hm Hi.
    rewrite (checkHandler_persisted env out req w text id now Ht Hm Hi).
    cbn [snd].
    destruct (truthy (shouldNotify env (req_notifyEmail req)
                        (probability (analyzeSpam text))));
      eexists; (split; [reflexivity|]); reflexivity.
Qed.

Example view_of_100 :
  let t := "0123456789012345678901234567890123456789012345678901234567890123456789012345678901234567890123456789" in
  String.length t = 100 /\
  viewText t
  = "01234567890123456789012345678901234567890123456789012345678901234567890123456..." /\
  String.length (viewText t) = 80.
Proof. repeat split. Qed.

Example view_of_50 :
  let t := "01234567890123456789012345678901234567890123456789" in
  String.length t = 50 /\ viewText t = t.
Proof. repeat split. Qed.

(** * Further properties of the server *)

(** ** Every path of the POST handler *)

Section CheckPaths.

Variables (env : Env) (out : Outside) (req : Request) (w : World).

Lemma checkHandler_missing :
  textMissing (req_text req) = Normal true ->
  checkHandler env out req w
  = (Normal (mkResponse 400 (Message "Text is required")), w).
Proof.
  intros H. unfold checkHandler, try_catch, bind, lift, ret. now rewrite H.
Qed.

Lemma checkHandler_thrown (e : JsError) :
  textMissing (req_text req) = Throw e ->
  checkHandler env out req w
  = (Normal (mkResponse 500 (Message "Server error")),
     mkWorld (collection w) (attempts w) (console w ++ [CheckError e])%list).
Proof.
  intros H. unfold checkHandler, try_catch, bind, lift, log, ret. now rewrite H.
Qed.

Lemma checkHandler_unwritten :
  textMissing (req_text req) = Normal false ->
  insert out = None ->
  checkHandler env out req w
  = (Normal (mkResponse 500 (Message "Server error")),
     mkWorld (collection w) (attempts w)
             (console w ++ [CheckError (Rejected "insert failed")])%list).
Proof.
  intros Hm Hi. destruct (textMissing_false _ Hm) as (text & Ht & _).
  unfold checkHandler, try_catch, bind, lift, create, log, ret.
  rewrite Hm, Ht. cbn [analyze]. now rewrite Hi.
Qed.

(** A falsy text is missing; a truthy text that is not a string throws. *)
Lemma textMissing_falsy (v : JsValue) :
  truthy v = false -> textMissing v = Normal true.
Proof. intros H. unfold textMissing. now rewrite H. Qed.

Lemma textMissing_not_string (v : JsValue) :
  truthy v = true -> (forall s, v <> JsStr s) ->
  textMissing v = Throw (TypeError "text.trim is not a function").
Proof.
  intros H Hs. unfold textMissing. rewrite H. cbn [negb].
  destruct v; try reflexivity. now destruct (Hs s).
Qed.

End CheckPaths.

(** What decides whether a message is handed to the transporter *)
Lemma shouldNotify_score (env : Env) (notifyEmail : JsValue) (text : string) :
  truthy (shouldNotify env notifyEmail (probability (analyzeSpam text)))
  = (truthy notifyEmail || truthy (envValue (ALERT_DEFAULT_TO env)))
    && (2 <=? scoreOf text)%nat.
Proof.
  rewrite truthy_shouldNotify. f_equal.
  exact (probabilityOf_forty (scoreOf text) (score_le_12 text)).
Qed.

(** X1: a text that is truthy but not a string (a number, [true], an array
    or an object) is answered with 500 "Server error", not with 400: the
    call of [trim] throws, the error is logged, nothing is written and no
    message is handed to the transporter. *)
Theorem nonstring_text_server_error
  (env : Env) (out : Outside) (req : Request) (w : World) :
  truthy (req_text req) = true ->
  (forall s, req_text req <> JsStr s) ->
  checkHandler env out req w
  = (Normal (mkResponse 500 (Message "Server error")),
     mkWorld (collection w) (attempts w)
             (console w ++ [CheckError (TypeError "text.trim is not a function")])%list).
Proof.
  intros H Hs.
  exact (checkHandler_thrown env out req w _ (textMissing_not_string _ H Hs)).
Qed.

Lemma nonstring_text_server_error_witness :
  checkHandler (mkEnv None None) scanOrderServer
               (mkRequest (JsNum 5) JsNull) tieWorld
  = (Normal (mkResponse 500 (Message "Server error")),
     mkWorld [tieA; tieB] []
             [CheckError (TypeError "text.trim is not a function")]).
Proof.
  apply (nonstring_text_server_error (mkEnv None None) scanOrderServer
           (mkRequest (JsNum 5) JsNull) tieWorld).
  - reflexivity.
  - intros s H. discriminate H.
Defined.

(** X2: every falsy text (undefined, null, false, 0, NaN, the empty
    string) is answered with 400 and a message, and the world is as
    before. *)
Theorem falsy_text_rejected
  (env : Env) (out : Outside) (req : Request) (w : World) :
  truthy (req_text req) = false ->
  checkHandler env out req w
  = (Normal (mkResponse 400 (Message "Text is required")), w).
Proof.
  intros H. apply checkHandler_missing. now apply textMissing_falsy.
Qed.

Lemma falsy_text_rejected_witness :
  checkHandler (mkEnv None None) scanOrderServer
               (mkRequest (JsNum 0) (JsStr "me@example.org")) tieWorld
  = (Normal (mkResponse 400 (Message "Text is required")), tieWorld).
Proof. apply falsy_text_rejected. reflexivity. Defined.

(** X3: when the write is rejected, a request with a valid text is
    answered with 500 "Server error"; the error is logged, the collection
    is as before and no message is handed to the transporter, whatever
    the score and the recipient. *)
Theorem write_rejected_server_error
  (env : Env) (out : Outside) (req : Request) (w : World) :
  textMissing (req_text req) = Normal false ->
  insert out = None ->
  checkHandler env out req w
  = (Normal (mkResponse 500 (Message "Server error")),
     mkWorld (collection w) (attempts w)
             (console w ++ [CheckError (Rejected "insert failed")])%list).
Proof. apply checkHandler_unwritten. Qed.

Lemma write_rejected_server_error_witness :
  checkHandler (mkEnv None (Some "ops@example.org")) scanOrderServer
               (mkRequest (JsStr "free cash prize") (JsStr "me@example.org"))
               tieWorld
  = (Normal (mkResponse 500 (Message "Server error")),
     mkWorld [tieA; tieB] [] [CheckError (Rejected "insert failed")]).
Proof.
  apply (write_rejected_server_error (mkEnv None (Some "ops@example.org"))
           scanOrderServer
           (mkRequest (JsStr "free cash prize") (JsStr "me@example.org")) tieWorld);
    reflexivity.
Defined.

(** X4: the handler always answers, with status 200, 400 or 500; it
    writes a record exactly when it answers 200, and then it adds one
    record, the analysis of the text, after the records that were there;
    otherwise the collection is as before. *)
Theorem record_written_iff_ok
  (env : Env) (out : Outside) (req : Request) (w : World) :
  exists resp,
    fst (checkHandler env out req w) = Normal resp /\
    (status resp = 200 \/ status resp = 400 \/ status resp = 500) /\
    (status resp = 200 ->
     exists id now text,
       insert out = Some (id, now) /\
       req_text req = JsStr text /\
       body resp = Checked id (result (analyzeSpam text))
                           (probability (analyzeSpam text))
                           (matchedKeywords (analyzeSpam text)) now /\
       collection (snd (checkHandler env out req w))
       = (collection w ++ [recordOf id now text])%list) /\
    (status resp <> 200 ->
     collection (snd (checkHandler env out req w)) = collection w).
Proof.
  destruct (textMissing (req_text req)) as [[|]|e] eqn:Hm.
  - rewrite (checkHandler_missing env out req w Hm).
    eexists. split; [reflexivity|]. cbn. split; [auto|].
    split; [discriminate | reflexivity].
  - destruct (textMissing_false _ Hm) as (text & Ht & _).
    destruct (insert out) as [[id now]|] eqn:Hi.
    + rewrite (checkHandler_persisted env out req w text id now Ht Hm Hi).
      eexists. split; [reflexivity|]. cbn [status body fst snd].
      split; [auto|]. split.
      * intros _. exists id, now, text. repeat split; trivial.
        destruct (truthy (shouldNotify env (req_notifyEmail req)
                            (probability (analyzeSpam text)))); reflexivity.
      * intros H. now destruct H.
    + rewrite (checkHandler_unwritten env out req w Hm Hi).
      eexists. split; [reflexivity|]. cbn. split; [auto|].
      split; [discriminate | reflexivity].
  - rewrite (checkHandler_thrown env out req w e Hm).
    eexists. split; [reflexivity|]. cbn. split; [auto|].
    split; [discriminate | reflexivity].
Qed.

(** X5: a request hands at most one message to the transporter, and only
    when it is answered with 200: it does so exactly when a recipient is
    given or configured and the text matches at least two indicators.
    The message then lists the matched indicators (never "none"), quotes
    the text and goes to the caller's recipient if there is one. *)
Theorem mail_attempts
  (env : Env) (out : Outside) (req : Request) (w : World) :
  exists resp,
    fst (checkHandler env out req w) = Normal resp /\
    (status resp <> 200 ->
     attempts (snd (checkHandler env out req w)) = attempts w) /\
    (status resp = 200 ->
     exists text,
       req_text req = JsStr text /\
       let a := analyzeSpam text in
       let m := mailOptions env (req_notifyEmail req) text
                            (probability a) (matchedKeywords a) in
       attempts (snd (checkHandler env out req w))
       = (if (truthy (req_notifyEmail req)
              || truthy (envValue (ALERT_DEFAULT_TO env)))
             && (2 <=? scoreOf text)%nat
          then attempts w ++ [m] else attempts w)%list /\
       quoted m = text /\
       to m = js_or (req_notifyEmail req) (envValue (ALERT_DEFAULT_TO env)) /\
       (2 <= scoreOf text -> keywords m = join ", " (matchedKeywords a))).
Proof.
  destruct (textMissing (req_text req)) as [[|]|e] eqn:Hm.
  - rewrite (checkHandler_missing env out req w Hm).
    eexists. split; [reflexivity|]. cbn. split; [reflexivity | discriminate].
  - destruct (textMissing_false _ Hm) as (text & Ht & _).
    destruct (insert out) as [[id now]|] eqn:Hi.
    + rewrite (checkHandler_persisted env out req w text id now Ht Hm Hi).
      eexists. split; [reflexivity|]. cbn [status fst snd].
      split; [intros H; now destruct H|].
      intros _. exists text. split; [exact Ht|].
      split; [|split; [reflexivity|split; [reflexivity|]]].
      * rewrite <- shouldNotify_score.
        destruct (truthy (shouldNotify env (req_notifyEmail req)
                            (probability (analyzeSpam text)))); reflexivity.
      * intros Hs. unfold mailOptions. cbn [keywords].
        unfold scoreOf in Hs.
        destruct (matchedKeywords (analyzeSpam text)); [simpl in Hs; lia | reflexivity].
    + rewrite (checkHandler_unwritten env out req w Hm Hi).
      eexists. split; [reflexivity|]. cbn. split; [reflexivity | discriminate].
  - rewrite (checkHandler_thrown env out req w e Hm).
    eexists. split; [reflexivity|]. cbn. split; [reflexivity | discriminate].
Qed.

(** ** The alert message *)

Section AlertMessage.

Lemma append_assoc (a b c : string) : (a ++ b) ++ c = a ++ b ++ c.
Proof. induction a as [|x a IH]; simpl; [reflexivity | now rewrite IH]. Qed.

(** White space is trimmed from the end only: what stands before a part
    that does not trim to nothing is kept as it is. *)
Lemma trimEnd_app (a b : string) :
  trimEnd b <> "" -> trimEnd (a ++ b) = a ++ trimEnd b.
Proof.
  intros Hb. induction a as [|c a IH]; [reflexivity|].
  cbn [append trimEnd]. rewrite IH.
  destruct (a ++ trimEnd b) as [|x r] eqn:E; [|reflexivity].
  destruct a; [now destruct Hb | discriminate E].
Qed.

Lemma trim_bodyTemplate (p keywordLine text : string) :
  trim (bodyTemplate p keywordLine text)
  = "We detected a spammy message." ++ nl ++ nl ++
    "Spam score: " ++ p ++ "%" ++ nl ++
    "Keywords: " ++ keywordLine ++ nl ++ nl ++
    "Message:" ++ nl ++ ruler ++ nl ++ text ++ nl ++ ruler.
Proof.
  unfold trim, bodyTemplate.
  change (trimStart (nl ++ "We detected a spammy message." ++ ?r))
    with ("We detected a spammy message." ++ r).
  replace ("We detected a spammy message." ++ nl ++ nl ++
           "Spam score: " ++ p ++ "%" ++ nl ++
           "Keywords: " ++ keywordLine ++ nl ++ nl ++
           "Message:" ++ nl ++ ruler ++ nl ++ text ++ nl ++ ruler ++ nl ++ "    ")
    with (("We detected a spammy message." ++ nl ++ nl ++
           "Spam score: " ++ p ++ "%" ++ nl ++
           "Keywords: " ++ keywordLine ++ nl ++ nl ++
           "Message:" ++ nl ++ ruler ++ nl ++ text)
          ++ nl ++ ruler ++ nl ++ "    ")
    by (rewrite !append_assoc; reflexivity).
  rewrite trimEnd_app by (vm_compute; discriminate).
  change (trimEnd (nl ++ ruler ++ nl ++ "    ")) with (nl ++ ruler).
  rewrite !append_assoc. reflexivity.
Qed.

Lemma percent_of_score (n : nat) :
  n <= 12 ->
  Number_toString (Math_round (PrimFloat.mul (probabilityOf n) 100))
  = Some (decimal (Z.of_nat (20 * Nat.min n 5))).
Proof.
  intros H.
  do 13 (destruct n as [|n]; [vm_compute; reflexivity|]); exfalso; lia.
Qed.

End AlertMessage.

(** X6: the alert for a text shows 20 percent for each matched indicator,
    100 at most, in its subject and in its body; the body quotes the text
    as it is, white space included, between two rulers: [trim] removes
    the line break and the indentation of the template and nothing of the
    text. *)
Theorem alert_message_of_text (env : Env) (toEmail : JsValue) (text : string) :
  let a := analyzeSpam text in
  let m := mailOptions env toEmail text (probability a) (matchedKeywords a) in
  let p := decimal (Z.of_nat (20 * Nat.min (scoreOf text) 5)) in
  subject m = Some ("[Spam Alert] " ++ p ++ "% spam detected") /\
  bodyText m
  = Some ("We detected a spammy message." ++ nl ++ nl ++
          "Spam score: " ++ p ++ "%" ++ nl ++
          "Keywords: " ++ keywords m ++ nl ++ nl ++
          "Message:" ++ nl ++ ruler ++ nl ++ text ++ nl ++ ruler).
Proof.
  intros a m p.
  assert (Hp : Number_toString (percent m) = Some p).
  { unfold percent, m, mailOptions. cbn [score]. unfold a.
    rewrite probability_eq.
    exact (percent_of_score (scoreOf text) (score_le_12 text)). }
  unfold subject, bodyText. rewrite Hp. split; [reflexivity|].
  now rewrite trim_bodyTemplate.
Qed.

(** ** The GET handler *)

(** X7: the history handler answers 200 with the views of the documents
    found and leaves the world as it was, or, when the query is rejected,
    500 "Server error" with the error logged; in both cases the
    collection is read only and no message is handed to the
    transporter. *)
Theorem history_responses (out : Outside) (w : World) :
  (exists docs,
     find out (collection w) = Some docs /\
     historyHandler out w
     = (Normal (mkResponse 200 (History (map view docs))), w)) \/
  (find out (collection w) = None /\
   historyHandler out w
   = (Normal (mkResponse 500 (Message "Server error")),
      mkWorld (collection w) (attempts w)
              (console w ++ [HistoryError (Rejected "find failed")])%list)).
Proof.
  unfold historyHandler, try_catch, bind, findRecent, log, ret.
  destruct (find out (collection w)) as [docs|].
  - left. exists docs. split; reflexivity.
  - right. split; reflexivity.
Qed.

(** X8: the text of a view has [min (length, 80)] characters, so never
    more than 80, and a view shown again would not change: a truncated
    text is not truncated twice. *)
Theorem viewText_length (t : string) :
  String.length (viewText t) = Nat.min (String.length t) 80 /\
  viewText (viewText t) = viewText t.
Proof.
  destruct (Nat.le_gt_cases (String.length t) 80) as [Hle | Hgt].
  - rewrite (viewText_short t Hle). split; [lia | now apply viewText_short].
  - destruct (viewText_long t Hgt) as [_ Hl]. split; [lia|].
    apply viewText_short. lia.
Qed.

Section HistoryOfStore.

Lemma firstn_all_le {A} (n : nat) (l : list A) :
  List.length l <= n -> firstn n l = l.
Proof.
  revert n; induction l as [|x l IH]; intros [|n] H; simpl in *;
    try reflexivity; try lia.
  rewrite IH; [reflexivity | lia].
Qed.

(** The head of an arrangement is the one record newer than all others. *)
Lemma RecentOf_newest (coll docs : list SpamCheck.t) (d : SpamCheck.t) :
  Forall (fun x => (SpamCheck.createdAt x < SpamCheck.createdAt d)%Z) coll ->
  RecentOf 10 (coll ++ [d]) docs ->
  exists rest, docs = d :: rest.
Proof.
  intros Hold (arranged & Hperm & Hsorted & ->).
  destruct arranged as [|h tl].
  - apply Permutation_length in Hperm. rewrite length_app in Hperm.
    simpl in Hperm. lia.
  - exists (firstn 9 tl). cbn [firstn]. f_equal.
    assert (Hh : In h (coll ++ [d])) by (apply (Permutation_in h Hperm); now left).
    apply in_app_or in Hh. destruct Hh as [Hh | [Hh | []]]; [|now symmetry].
    exfalso.
    assert (Hlt := proj1 (Forall_forall _ _) Hold h Hh). cbn beta in Hlt.
    assert (Hd : In d (h :: tl)).
    { apply (Permutation_in d (Permutation_sym Hperm)).
      apply in_or_app. right. now left. }
    destruct Hd as [Hd | Hd]; [subst; lia|].
    inversion Hsorted as [|? ? _ Hall]; subst.
    assert (Hge := proj1 (Forall_forall _ _) Hall d Hd).
    unfold newerOrEqual in Hge. lia.
Qed.

End HistoryOfStore.

(** X9: a record written with a [createdAt] later than every stored one
    is the first of the history requested next, whatever the database's
    order between equal keys: the sort on [createdAt] descending puts it
    there, with the id, the verdict, the probability, the indicators and
    the time the POST response gave. *)
Theorem written_record_heads_history
  (env : Env) (out : Outside) (req : Request) (w : World)
  (id : ObjectId) (now : Z) (out' : Outside) (docs : list SpamCheck.t) :
  textMissing (req_text req) = Normal false ->
  insert out = Some (id, now) ->
  Forall (fun d => (SpamCheck.createdAt d < now)%Z) (collection w) ->
  find out' (collection (snd (checkHandler env out req w))) = Some docs ->
  exists text rest,
    req_text req = JsStr text /\
    fst (checkHandler env out req w)
    = Normal (mkResponse 200
                (Checked id (result (analyzeSpam text))
                         (probability (analyzeSpam text))
                         (matchedKeywords (analyzeSpam text)) now)) /\
    fst (historyHandler out' (snd (checkHandler env out req w)))
    = Normal (mkResponse 200
                (History
                   (SpamCheck.mk id (viewText text) (result (analyzeSpam text))
                                 (probability (analyzeSpam text))
                                 (matchedKeywords (analyzeSpam text)) now
                    :: map view rest))).
Proof.
  intros Hm Hi Hold Hf.
  assert (Hr := find_RecentOf _ _ _ Hf).
  destruct (textMissing_false _ Hm) as (text & Ht & _).
  assert (Hc : collection (snd (checkHandler env out req w))
               = (collection w ++ [recordOf id now text])%list).
  { rewrite (checkHandler_persisted env out req w text id now Ht Hm Hi). cbn [snd].
    destruct (truthy (shouldNotify env (req_notifyEmail req)
                        (probability (analyzeSpam text)))); reflexivity. }
  rewrite Hc in Hr.
  destruct (RecentOf_newest (collection w) docs (recordOf id now text) Hold Hr)
    as [rest ->].
  exists text, rest. split; [exact Ht|]. split.
  - now rewrite (checkHandler_persisted env out req w text id now Ht Hm Hi).
  - now rewrite (historyHandler_found out' _ _ Hf).
Qed.

Lemma written_record_heads_history_witness :
  fst (historyHandler scanOrderServer
         (snd (checkHandler (mkEnv None None)
                 (mkOutside (Some ("c", 2000%Z)) (fun _ => Normal "m1") scanOrderFind)
                 (mkRequest (JsStr "You WIN") JsNull) tieWorld)))
  = Normal (mkResponse 200
              (History [SpamCheck.mk "c" "You WIN" "not_spam" 0.2 ["win"] 2000;
                        view tieA; view tieB])).
Proof.
  destruct (written_record_heads_history (mkEnv None None)
              (mkOutside (Some ("c", 2000%Z)) (fun _ => Normal "m1") scanOrderFind)
              (mkRequest (JsStr "You WIN") JsNull) tieWorld "c" 2000%Z
              scanOrderServer
              [SpamCheck.mk "c" "You WIN" "not_spam" 0.2 ["win"] 2000; tieA; tieB])
    as (text & rest & Ht & _ & Hh).
  - reflexivity.
  - reflexivity.
  - repeat constructor.
  - reflexivity.
  - reflexivity.
Defined.

(** X10: while at most 10 records are stored, the limit of the query cuts
    nothing and its sort only reorders: every answer holds each stored
    record once, so the history leaves none out. *)
Theorem small_store_history_complete
  (out : Outside) (w : World) (docs : list SpamCheck.t) :
  find out (collection w) = Some docs ->
  List.length (collection w) <= 10 ->
  Permutation docs (collection w) /\
  fst (historyHandler out w) = Normal (mkResponse 200 (History (map view docs))) /\
  List.length (map view docs) = List.length (collection w).
Proof.
  intros Hf Hlen.
  destruct (find_RecentOf _ _ _ Hf) as (arranged & Hperm & _ & ->).
  rewrite firstn_all_le in * by (rewrite (Permutation_length Hperm); exact Hlen).
  split; [exact Hperm|]. split.
  - now rewrite (historyHandler_found out w arranged Hf).
  - now rewrite length_map, (Permutation_length Hperm).
Qed.

Lemma small_store_history_complete_witness :
  Permutation [tieA; tieB] (collection tieWorld).
Proof.
  refine (proj1 (small_store_history_complete scanOrderServer tieWorld
                   [tieA; tieB] _ _)).
  - reflexivity.
  - simpl. lia.
Defined.

(** ** More on the classifier *)

Section ClassifierMore.

Lemma includes_embedded (a s b w : string) :
  includes s w = true -> includes (a ++ s ++ b) w = true.
Proof.
  rewrite !includes_spec. intros (pre & post & ->).
  exists (a ++ pre), (post ++ b). now rewrite !append_assoc.
Qed.

Lemma filter_length_mono {A} (f g : A -> bool) (l : list A) :
  (forall x, f x = true -> g x = true) ->
  List.length (filter f l) <= List.length (filter g l).
Proof.
  intros H. induction l as [|x l IH]; simpl; [lia|].
  destruct (f x) eqn:E.
  - rewrite (H x E). simpl. lia.
  - destruct (g x); simpl; lia.
Qed.

(** The probabilities of the thirteen scores, in order. *)
Lemma probabilityOf_table :
  forallb (fun n =>
    forallb (fun m =>
      implb (n <=? m)%nat (PrimFloat.leb (probabilityOf n) (probabilityOf m)))
      (seq 0 13)) (seq 0 13) = true.
Proof. vm_compute. reflexivity. Qed.

Lemma probabilityOf_mono (n m : nat) :
  n <= m -> m <= 12 ->
  PrimFloat.leb (probabilityOf n) (probabilityOf m) = true.
Proof.
  intros Hnm Hm.
  assert (In_n : In n (seq 0 13)) by (apply in_seq; lia).
  assert (In_m : In m (seq 0 13)) by (apply in_seq; lia).
  assert (Hn := proj1 (forallb_forall _ _) probabilityOf_table n In_n).
  cbv beta in Hn.
  assert (Hn' := proj1 (forallb_forall _ _) Hn m In_m).
  cbv beta in Hn'.
  rewrite (proj2 (Nat.leb_le n m) Hnm) in Hn'. exact Hn'.
Qed.

Lemma result_spam_score (text : string) :
  result (analyzeSpam text) = "spam" <-> 3 <= scoreOf text.
Proof.
  rewrite result_spam_iff, probability_eq.
  change (ge (probabilityOf (scoreOf text)) 0.5 = true <-> 3 <= scoreOf text).
  rewrite (probabilityOf_half (scoreOf text) (score_le_12 text)). apply Nat.leb_le.
Qed.

Lemma lowerChar_idem (c : ascii) : lowerChar (lowerChar c) = lowerChar c.
Proof.
  destruct c as [[|] [|] [|] [|] [|] [|] [|] [|]]; reflexivity.
Qed.

Lemma toLowerCase_idem (s : string) : toLowerCase (toLowerCase s) = toLowerCase s.
Proof.
  induction s as [|c s IH]; simpl; [reflexivity|].
  now rewrite lowerChar_idem, IH.
Qed.

End ClassifierMore.

(** X11: text added before or after a text never lowers its analysis:
    the matched indicators stay matched, the score and the probability do
    not decrease, and a spam verdict stays. *)
Theorem analysis_monotone (a t b : string) :
  let r1 := analyzeSpam t in
  let r2 := analyzeSpam (a ++ t ++ b) in
  incl (matchedKeywords r1) (matchedKeywords r2) /\
  scoreOf t <= scoreOf (a ++ t ++ b) /\
  PrimFloat.leb (probability r1) (probability r2) = true /\
  (result r1 = "spam" -> result r2 = "spam").
Proof.
  intros r1 r2.
  assert (Hinc : forall w, includes (toLowerCase t) w = true ->
                           includes (toLowerCase (a ++ t ++ b)) w = true).
  { intros w H. rewrite !toLowerCase_app. now apply includes_embedded. }
  assert (Hs : scoreOf t <= scoreOf (a ++ t ++ b)).
  { unfold scoreOf. rewrite !matched_filter. now apply filter_length_mono. }
  split; [|split; [exact Hs|split]].
  - unfold r1, r2. rewrite !matched_filter. intros w Hw.
    rewrite filter_In in Hw |- *. destruct Hw as [Hl Hw]. auto.
  - unfold r1, r2. rewrite !probability_eq.
    exact (probabilityOf_mono _ _ Hs (score_le_12 (a ++ t ++ b))).
  - unfold r1, r2. rewrite !result_spam_score. lia.
Qed.

(** X12: the analysis does not depend on letter case: lowering a text
    first gives the same verdict, probability and indicators. *)
Theorem analysis_ignores_case (text : string) :
  analyzeSpam (toLowerCase text) = analyzeSpam text.
Proof. unfold analyzeSpam. now rewrite toLowerCase_idem. Qed.

(** X13: a text that contains "winner" in any letter case matches "win"
    too, so it scores at least 2 and a given recipient is notified,
    whatever else the text holds. *)
Theorem winner_counts_twice (text : string) :
  ci_substring "winner" text ->
  In "win" (matchedKeywords (analyzeSpam text)) /\
  In "winner" (matchedKeywords (analyzeSpam text)) /\
  2 <= scoreOf text /\
  forall env notifyEmail,
    truthy notifyEmail = true ->
    truthy (shouldNotify env notifyEmail (probability (analyzeSpam text))) = true.
Proof.
  intros H.
  apply (includes_lower_spec text "winner" eq_refl) in H.
  assert (Hwin : includes (toLowerCase text) "win" = true).
  { apply includes_spec. apply includes_spec in H.
    destruct H as (pre & post & ->). now exists pre, ("ner" ++ post). }
  assert (Hs : 2 <= scoreOf text).
  { unfold scoreOf. rewrite matched_filter. unfold SPAM_KEYWORDS.
    cbn [filter]. rewrite H, Hwin.
    destruct (includes (toLowerCase text) "free"); cbn [List.length]; lia. }
  rewrite matched_filter, !filter_In. repeat split; trivial.
  - simpl. auto.
  - simpl. auto.
  - intros env notifyEmail Hn. rewrite shouldNotify_score, Hn.
    cbn [orb andb]. now apply Nat.leb_le.
Qed.

Lemma winner_counts_twice_witness :
  2 <= scoreOf "You are the WINNER".
Proof.
  refine (proj1 (proj2 (proj2 (winner_counts_twice "You are the WINNER" _)))).
  exists "You are the ", "WINNER", "". split; reflexivity.
Defined.

(** * Properties of the page *)

Import App.

(** ** Escaping and reading a pattern *)

Section Escaping.

Lemma append_nil_r (s : string) : s ++ "" = s.
Proof. induction s as [|c s IH]; simpl; [reflexivity | now rewrite IH]. Qed.

Lemma parseGroup_backslash (d : ascii) (r : string) :
  parseGroup (String backslash (String d r))
  = if isSyntaxChar d then consChar d (parseGroup r) else None.
Proof. reflexivity. Qed.

Lemma parseGroup_bar (r : string) :
  parseGroup (String "|" r) = option_map (cons "") (parseGroup r).
Proof. reflexivity. Qed.

Lemma parseGroup_plain (c : ascii) (r : string) :
  isSyntaxChar c = false ->
  parseGroup (String c r) = consChar c (parseGroup r).
Proof.
  intros H. cbn [parseGroup].
  destruct (Ascii.eqb c ")") eqn:E1.
  { apply Ascii.eqb_eq in E1. subst. discriminate H. }
  destruct (Ascii.eqb c "|") eqn:E2.
  { apply Ascii.eqb_eq in E2. subst. discriminate H. }
  destruct (Ascii.eqb c backslash) eqn:E3.
  { apply Ascii.eqb_eq in E3. subst. discriminate H. }
  now rewrite H.
Qed.

(** An escaped keyword is read back as the keyword, in front of what
    follows it. *)
Lemma parseGroup_escape (k rest a : string) (l : list string) :
  parseGroup rest = Some (a :: l) ->
  parseGroup (escapeRegExp k ++ rest) = Some ((k ++ a) :: l).
Proof.
  intros H. induction k as [|c k IH]; [exact H|].
  cbn [escapeRegExp]. destruct (isSyntaxChar c) eqn:E.
  - cbn [append]. rewrite parseGroup_backslash, E, IH. reflexivity.
  - cbn [append]. rewrite (parseGroup_plain c _ E), IH. reflexivity.
Qed.

Lemma parseGroup_join (k : string) (kws : list string) :
  parseGroup (join "|" (map escapeRegExp (k :: kws)) ++ ")") = Some (k :: kws).
Proof.
  revert k; induction kws as [|k2 kws IH]; intros k.
  - cbn [map join].
    rewrite (parseGroup_escape k ")" "" [] eq_refl). now rewrite append_nil_r.
  - change (join "|" (map escapeRegExp (k :: k2 :: kws)))
      with (escapeRegExp k ++ "|" ++ join "|" (map escapeRegExp (k2 :: kws))).
    rewrite !append_assoc.
    rewrite (parseGroup_escape k _ "" (k2 :: kws)); [now rewrite append_nil_r|].
    change ("|" ++ ?x) with (String "|" x).
    now rewrite parseGroup_bar, IH.
Qed.

Lemma escaped_source_reads_back_aux (k : string) (kws : list string) :
  RegExp_alternatives ("(" ++ join "|" (map escapeRegExp (k :: kws)) ++ ")")
  = Some (k :: kws).
Proof.
  change ("(" ++ ?x) with (String "(" x). cbn [RegExp_alternatives].
  change (Ascii.eqb "(" "(") with true. cbv iota.
  apply parseGroup_join.
Qed.

End Escaping.



(** ** Matching and replacing *)

Section Highlighting.

(** Below 256, two code units are the same under the [i] flag exactly
    when [toLowerCase] sends them to the same code unit. *)
Lemma canonicalize_table :
  forallb (fun x =>
    forallb (fun y =>
      Bool.eqb (canonicalize (ascii_of_nat x) =? canonicalize (ascii_of_nat y))%nat
               (Ascii.eqb (lowerChar (ascii_of_nat x)) (lowerChar (ascii_of_nat y))))
      (seq 0 256)) (seq 0 256) = true.
Proof. vm_compute. reflexivity. Qed.

Lemma canonicalize_lowerChar (a b : ascii) :
  (canonicalize a =? canonicalize b)%nat = Ascii.eqb (lowerChar a) (lowerChar b).
Proof.
  assert (Ha : In (nat_of_ascii a) (seq 0 256))
    by (apply in_seq; pose proof (nat_ascii_bounded a); lia).
  assert (Hb : In (nat_of_ascii b) (seq 0 256))
    by (apply in_seq; pose proof (nat_ascii_bounded b); lia).
  assert (H := proj1 (forallb_forall _ _) canonicalize_table _ Ha).
  cbv beta in H.
  assert (H' := proj1 (forallb_forall _ _) H _ Hb).
  cbv beta in H'. rewrite !ascii_nat_embedding in H'.
  now apply Bool.eqb_prop in H'.
Qed.

(** A literal matches the characters in front of the text that are equal
    to it up to letter case. *)
Lemma matchLiteral_spec (k text m : string) :
  matchLiteral k text = Some m <->
  (exists rest, text = m ++ rest) /\ toLowerCase m = toLowerCase k.
Proof.
  revert text m; induction k as [|a k IH]; intros text m.
  - cbn [matchLiteral]. split.
    + intros H. injection H as <-. split; [now exists text | reflexivity].
    + intros [_ H]. destruct m; [reflexivity | discriminate H].
  - cbn [matchLiteral]. destruct text as [|b text].
    + split; [discriminate|]. intros [[rest Hr] Hl].
      destruct m; [discriminate Hl | discriminate Hr].
    + rewrite canonicalize_lowerChar.
      destruct (Ascii.eqb (lowerChar a) (lowerChar b)) eqn:E.
      * apply Ascii.eqb_eq in E.
        destruct (matchLiteral k text) as [m'|] eqn:Em; cbn [option_map].
        -- destruct (proj1 (IH text m') Em) as [[rest ->] Hl]. split.
           ++ intros H. injection H as <-. split; [now exists rest|].
              cbn [toLowerCase]. now rewrite Hl, E.
           ++ intros [[rest' Hr] Hl'].
              destruct m as [|c m]; [discriminate Hl'|].
              cbn [append] in Hr. injection Hr as <- Hr.
              cbn [toLowerCase] in Hl'. injection Hl' as _ Hl'.
              assert (Hm : matchLiteral k (m' ++ rest) = Some m).
              { apply IH. split; [now exists rest' | exact Hl']. }
              rewrite Em in Hm. now injection Hm as ->.
        -- split; [discriminate|]. intros [[rest' Hr] Hl'].
           destruct m as [|c m]; [discriminate Hl'|].
           cbn [append] in Hr. injection Hr as <- Hr.
           cbn [toLowerCase] in Hl'. injection Hl' as _ Hl'.
           assert (Hm : matchLiteral k text = Some m).
           { apply IH. split; [now exists rest' | exact Hl']. }
           rewrite Em in Hm. discriminate Hm.
      * split; [discriminate|]. intros [[rest' Hr] Hl'].
        destruct m as [|c m]; [discriminate Hl'|].
        cbn [append] in Hr. injection Hr as <- Hr.
        cbn [toLowerCase] in Hl'. injection Hl' as Hc _.
        apply Ascii.eqb_neq in E. now destruct E.
Qed.

(** The group matches with its first alternative that matches. *)
Lemma matchAlternatives_spec (alts : list string) (text m : string) :
  matchAlternatives alts text = Some m <->
  exists before k after,
    alts = (before ++ k :: after)%list /\
    matchLiteral k text = Some m /\
    forall k', In k' before -> matchLiteral k' text = None.
Proof.
  induction alts as [|a alts IH]; cbn [matchAlternatives].
  - split; [discriminate|]. intros (before & k & after & H & _).
    destruct before; discriminate H.
  - destruct (matchLiteral a text) as [m'|] eqn:E.
    + split.
      * intros H. injection H as <-. exists [], a, alts. repeat split; trivial.
        intros k' [].
      * intros (before & k & after & H & Hk & Hb).
        destruct before as [|b before]; cbn [app] in H; injection H as <- _.
        -- now rewrite <- Hk, E.
        -- rewrite (Hb a (or_introl eq_refl)) in E. discriminate E.
    + rewrite IH. split.
      * intros (before & k & after & -> & Hk & Hb).
        exists (a :: before), k, after. repeat split; trivial.
        intros k' [<- | Hk']; [exact E | now apply Hb].
      * intros (before & k & after & H & Hk & Hb).
        destruct before as [|b before]; cbn [app] in H; injection H as <- ->.
        -- rewrite Hk in E. discriminate E.
        -- exists before, k, after. repeat split; trivial.
           intros k' Hk'. apply Hb. now right.
Qed.

Lemma matchAlternatives_In (alts : list string) (text m : string) :
  matchAlternatives alts text = Some m ->
  (exists rest, text = m ++ rest) /\
  exists k, In k alts /\ toLowerCase m = toLowerCase k.
Proof.
  intros H. apply matchAlternatives_spec in H.
  destruct H as (before & k & after & -> & Hk & _).
  apply matchLiteral_spec in Hk. destruct Hk as [Hr Hl].
  split; [exact Hr|]. exists k. split; [|exact Hl].
  apply in_or_app. right. now left.
Qed.

Lemma dropChars_0 (s : string) : dropChars 0 s = s.
Proof. destruct s; reflexivity. Qed.

Lemma dropChars_app (m rest : string) :
  dropChars (String.length m) (m ++ rest) = rest.
Proof. induction m as [|c m IH]; [apply dropChars_0 | exact IH]. Qed.

Lemma replaceAll_render (alts : list string) (text : string) (skip : nat) :
  replaceAll alts skip text = render (pieces alts skip text).
Proof.
  revert skip; induction text as [|c t IH]; intros [|k]; cbn [replaceAll pieces].
  - destruct (matchAlternatives alts ""); reflexivity.
  - reflexivity.
  - destruct (matchAlternatives alts (String c t)) as [m|]; cbn [render].
    + destruct (String.length m); cbn [render]; now rewrite IH.
    + now rewrite IH.
  - apply IH.
Qed.

Lemma pieces_erase (alts : list string) (text : string) (skip : nat) :
  erase (pieces alts skip text) = dropChars skip text.
Proof.
  revert skip; induction text as [|c t IH]; intros [|k]; cbn [pieces].
  - destruct (matchAlternatives alts "") as [m|] eqn:E; [|reflexivity].
    destruct (matchAlternatives_In _ _ _ E) as [[rest Hr] _].
    destruct m; [reflexivity | discriminate Hr].
  - reflexivity.
  - destruct (matchAlternatives alts (String c t)) as [m|] eqn:E.
    + destruct (matchAlternatives_In _ _ _ E) as [[rest Hr] _].
      destruct m as [|c' m]; cbn [String.length erase].
      * rewrite IH, dropChars_0. reflexivity.
      * cbn [append] in Hr. injection Hr as <- ->.
        rewrite IH, dropChars_app. reflexivity.
    + cbn [erase]. rewrite IH, dropChars_0. reflexivity.
  - cbn [dropChars]. apply IH.
Qed.

Lemma pieces_marked (alts : list string) (text : string) (skip : nat) (m : string) :
  In (Marked m) (pieces alts skip text) ->
  exists s, matchAlternatives alts s = Some m.
Proof.
  revert skip; induction text as [|c t IH]; intros [|k]; cbn [pieces].
  - destruct (matchAlternatives alts "") as [m'|] eqn:E; [|intros []].
    intros [H | []]. injection H as ->. now exists "".
  - intros [].
  - destruct (matchAlternatives alts (String c t)) as [m'|] eqn:E.
    + intros [H | H]; [injection H as ->; now exists (String c t)|].
      destruct (String.length m'); [destruct H as [H | H]; [discriminate H|]|];
        exact (IH _ H).
    + intros [H | H]; [discriminate H | exact (IH _ H)].
  - apply IH.
Qed.

Lemma plain_pieces (s : string) :
  render (map Plain (list_ascii_of_string s)) = s /\
  erase (map Plain (list_ascii_of_string s)) = s.
Proof.
  induction s as [|c s [IH1 IH2]]; [split; reflexivity|].
  cbn [list_ascii_of_string map render erase]. now rewrite IH1, IH2.
Qed.

(** What is returned is the rendering of the parts. *)
Lemma getHighlightedHtml_pieces (text : string) (keywords : list string) :
  getHighlightedHtml text keywords = Some (render (shownPieces text keywords)).
Proof.
  unfold getHighlightedHtml, shownPieces.
  destruct text as [|c t]; [reflexivity|]. cbn [truthy negb].
  destruct keywords as [|k kws].
  - now rewrite (proj1 (plain_pieces (String c t))).
  - rewrite (escaped_source_reads_back_aux k kws).
    now rewrite replaceAll_render.
Qed.

Lemma shownPieces_erase (text : string) (keywords : list string) :
  erase (shownPieces text keywords) = text.
Proof.
  unfold shownPieces. destruct text as [|c t]; [reflexivity|].
  destruct keywords as [|k kws].
  - apply plain_pieces.
  - now rewrite pieces_erase, dropChars_0.
Qed.

Lemma shownPieces_marked (text : string) (keywords : list string) (m : string) :
  In (Marked m) (shownPieces text keywords) ->
  exists s, matchAlternatives keywords s = Some m.
Proof.
  unfold shownPieces. destruct text as [|c t]; [intros []|].
  destruct keywords as [|k kws].
  - intros H. apply in_map_iff in H. destruct H as (x & Hx & _). discriminate Hx.
  - apply pieces_marked.
Qed.

(** A literal that matches has every beginning of it matching too. *)
Lemma matchLiteral_prefix (a b s m : string) :
  matchLiteral (a ++ b) s = Some m -> exists m1, matchLiteral a s = Some m1.
Proof.
  intros H. apply matchLiteral_spec in H. destruct H as [[rest ->] Hl].
  rewrite toLowerCase_app in Hl.
  destruct (toLowerCase_split _ _ _ Hl) as (ma & mb & -> & Ha & _).
  exists ma. apply matchLiteral_spec. split; [|exact Ha].
  exists (mb ++ rest). now rewrite append_assoc.
Qed.

(** Where the group matches somewhere in the text, the scan marks
    something. *)
Lemma pieces_mark_found (alts : list string) (pre suf m : string) :
  matchAlternatives alts suf = Some m ->
  exists m', In (Marked m') (pieces alts 0 (pre ++ suf)).
Proof.
  intros H. induction pre as [|c pre IH].
  - exists m. cbn [append]. destruct suf; cbn [pieces]; rewrite H; now left.
  - cbn [append pieces].
    destruct (matchAlternatives alts (String c (pre ++ suf))) as [m1|].
    + exists m1. now left.
    + destruct IH as [m' Hm']. exists m'. now right.
Qed.

Lemma includes_winner_win (s : string) :
  includes s "winner" = true -> includes s "win" = true.
Proof.
  rewrite !includes_spec. intros (pre & post & ->). now exists pre, ("ner" ++ post).
Qed.

End Highlighting.

(** X15: the highlighted text is the text cut into copied characters and
    marked matches: taking the marks away gives the text back, character
    for character (nothing is escaped, dropped or reordered), and every
    marked part is one of the keywords up to letter case. *)
Theorem highlight_keeps_text (text : string) (keywords : list string) :
  getHighlightedHtml text keywords = Some (render (shownPieces text keywords)) /\
  erase (shownPieces text keywords) = text /\
  forall m,
    In (Marked m) (shownPieces text keywords) ->
    exists k, In k keywords /\ toLowerCase m = toLowerCase k.
Proof.
  split; [apply getHighlightedHtml_pieces|].
  split; [apply shownPieces_erase|].
  intros m H. destruct (shownPieces_marked _ _ _ H) as [s Hs].
  exact (proj2 (matchAlternatives_In _ _ _ Hs)).
Qed.

(** X16: with the indicators of any analysis as keywords, "winner" is
    never marked as a whole: "win" stands before it in the lexicon, so
    the group matches "win" first and the mark ends after three
    letters. *)
Theorem winner_marked_as_win (checked shown : string) :
  let keywords := matchedKeywords (analyzeSpam checked) in
  getHighlightedHtml shown keywords = Some (render (shownPieces shown keywords)) /\
  forall m, In (Marked m) (shownPieces shown keywords) -> toLowerCase m <> "winner".
Proof.
  intros keywords. split; [apply getHighlightedHtml_pieces|].
  intros m H Hl.
  destruct (shownPieces_marked _ _ _ H) as [s Hs].
  apply matchAlternatives_spec in Hs.
  destruct Hs as (before & k & after & Hk & Hm & Hb).
  assert (Hin : In k keywords) by (rewrite Hk; apply in_or_app; right; now left).
  unfold keywords in Hin, Hk. rewrite matched_filter in Hin, Hk.
  apply filter_In in Hin. destruct Hin as [Hlex Hf].
  assert (Hkl : toLowerCase k = k)
    by exact (proj1 (Forall_forall _ _) keywords_lowercase k Hlex).
  assert (Ek : k = "winner").
  { rewrite <- Hkl, <- Hl. symmetry. exact (proj2 (proj1 (matchLiteral_spec _ _ _) Hm)). }
  subst k.
  assert (Hwin : includes (toLowerCase checked) "win" = true)
    by now apply includes_winner_win.
  assert (Hbw : In "win" before).
  { unfold SPAM_KEYWORDS in Hk. cbn [filter] in Hk. rewrite Hf, Hwin in Hk.
    destruct (includes (toLowerCase checked) "free").
    - destruct before as [|b1 [|b2 before]]; cbn [app] in Hk.
      + discriminate Hk.
      + injection Hk as _ Hk. discriminate Hk.
      + injection Hk as _ <- _. right. now left.
    - destruct before as [|b1 before]; cbn [app] in Hk.
      + discriminate Hk.
      + injection Hk as <- _. now left. }
  destruct (matchLiteral_prefix "win" "ner" s m Hm) as [m1 Hm1].
  rewrite (Hb "win" Hbw) in Hm1. discriminate Hm1.
Qed.

Example winner_preview :
  getHighlightedHtml "You are a WINNER"
                     (matchedKeywords (analyzeSpam "You are a WINNER"))
  = Some ("You are a " ++ mark "WIN" ++ "NER").
Proof. reflexivity. Qed.

(** X17: for a text whose code units are all below 256, as every string
    of this model is, when the analysis of the text shown matched an
    indicator, the preview marks at least one part of it: on these code
    units [toLowerCase] and the [i] flag agree on which characters are
    the same letter.  (They part beyond: [toLowerCase] sends the Kelvin
    sign U+212A to k, which the [i] flag without [u] does not match.) *)
Theorem matched_text_is_highlighted (text : string) :
  matchedKeywords (analyzeSpam text) <> [] ->
  exists m,
    In (Marked m) (shownPieces text (matchedKeywords (analyzeSpam text))) /\
    getHighlightedHtml text (matchedKeywords (analyzeSpam text))
    = Some (render (shownPieces text (matchedKeywords (analyzeSpam text)))).
Proof.
  intros Hne.
  destruct (matchedKeywords (analyzeSpam text)) as [|k kws] eqn:E;
    [now destruct Hne|].
  assert (Hin : In k (matchedKeywords (analyzeSpam text))) by (rewrite E; now left).
  rewrite matched_filter in Hin. apply filter_In in Hin. destruct Hin as [Hlex Hf].
  assert (Hkl : toLowerCase k = k)
    by exact (proj1 (Forall_forall _ _) keywords_lowercase k Hlex).
  apply (includes_lower_spec text k Hkl) in Hf.
  destruct Hf as (pre & mid & post & -> & Hmid).
  assert (Hm : matchLiteral k (mid ++ post) = Some mid).
  { apply matchLiteral_spec. split; [now exists post | exact Hmid]. }
  assert (Ha : exists m, matchAlternatives (k :: kws) (mid ++ post) = Some m).
  { cbn [matchAlternatives]. rewrite Hm. now exists mid. }
  destruct Ha as [m0 Ha].
  destruct (pieces_mark_found (k :: kws) pre (mid ++ post) m0 Ha) as [m' Hm'].
  exists m'. split; [|apply getHighlightedHtml_pieces].
  unfold shownPieces.
  destruct (pre ++ mid ++ post) as [|c t] eqn:Et; [|exact Hm'].
  exfalso. destruct pre; [|discriminate Et]. destruct mid; [|discriminate Et].
  cbn [toLowerCase] in Hmid. rewrite <- Hmid in Hkl. subst k.
  revert Hlex. unfold SPAM_KEYWORDS. simpl. intuition discriminate.
Qed.

Lemma matched_text_is_highlighted_witness :
  exists m,
    In (Marked m) (shownPieces "Free CASH" (matchedKeywords (analyzeSpam "Free CASH"))) /\
    getHighlightedHtml "Free CASH" (matchedKeywords (analyzeSpam "Free CASH"))
    = Some (render (shownPieces "Free CASH"
                      (matchedKeywords (analyzeSpam "Free CASH")))).
Proof. apply matched_text_is_highlighted. discriminate. Defined.

(** ** The requests of the page *)

Section PageRequests.

Lemma truthy_JsStr (s : string) :
  truthy (JsStr s) = negb (String.eqb s "").
Proof. destruct s; reflexivity. Qed.

Lemma truthy_nonempty (s : string) : s <> "" -> truthy (JsStr s) = true.
Proof. destruct s; [intros H; now destruct H | reflexivity]. Qed.

Lemma textMissing_nonblank (s : string) :
  trim s <> "" -> textMissing (JsStr s) = Normal false.
Proof.
  intros H. unfold textMissing.
  rewrite (truthy_nonempty _ H).
  destruct s as [|c s]; [now destruct H | reflexivity].
Qed.

Lemma historyHandler_attempts (out : Outside) (w : World) :
  attempts (snd (historyHandler out w)) = attempts w.
Proof.
  unfold historyHandler, try_catch, bind, findRecent, log, ret.
  destruct (find out (collection w)); reflexivity.
Qed.

Lemma historyHandler_normal (out : Outside) (w : World) :
  exists resp, fst (historyHandler out w) = Normal resp.
Proof.
  unfold historyHandler, try_catch, bind, findRecent, log, ret.
  destruct (find out (collection w)); eexists; reflexivity.
Qed.

(** [loadHistory] changes the history only, and neither the collection
    nor the messages handed to the transporter. *)
Lemma loadHistory_keeps (net : Page.Net) (out : Outside) (u : Page.t) (w : World) :
  let r := Page.loadHistory net out (u, w) in
  Page.result (fst r) = Page.result u /\
  Page.probability (fst r) = Page.probability u /\
  Page.time (fst r) = Page.time u /\
  Page.matchedKeywords (fst r) = Page.matchedKeywords u /\
  Page.error (fst r) = Page.error u /\
  Page.loading (fst r) = Page.loading u /\
  collection (snd r) = collection w /\
  attempts (snd r) = attempts w.
Proof.
  unfold Page.loadHistory. destruct (Page.historyReachable net); [|now repeat split].
  pose proof (historyHandler_collection out w) as Hc.
  pose proof (historyHandler_attempts out w) as Ha.
  destruct (historyHandler out w) as [[resp|e] w']; cbn [fst snd] in *;
    now repeat split.
Qed.

(** What [handleCheck] does once the text and the address pass its own
    checks, the server is reached and the record is written. *)
Lemma handleCheck_written
  (withNotify : bool) (net : Page.Net) (env : Env) (out : Outside)
  (u : Page.t) (w : World) (id : ObjectId) (now : Z) :
  trim (Page.text u) <> "" ->
  (withNotify = true -> trim (Page.alertEmail u) <> "") ->
  Page.checkReachable net = true ->
  insert out = Some (id, now) ->
  let req := mkRequest (JsStr (Page.text u))
               (if withNotify then JsStr (trim (Page.alertEmail u)) else JsNull) in
  let a := analyzeSpam (Page.text u) in
  Page.handleCheck withNotify net env out (u, w)
  = Page.loadHistory net out
      (Page.mk (Page.text u) (Page.alertEmail u) (JsStr (result a))
               (Some (probability a)) (Some now) (matchedKeywords a)
               (Page.history u) false "",
       snd (checkHandler env out req w)).
Proof.
  intros Ht Ha Hn Hi req a.
  unfold Page.handleCheck.
  rewrite (truthy_nonempty _ Ht). cbn [negb].
  assert (Hw : withNotify && negb (truthy (JsStr (trim (Page.alertEmail u)))) = false).
  { destruct withNotify; [|reflexivity].
    now rewrite (truthy_nonempty _ (Ha eq_refl)). }
  rewrite Hw, Hn. cbn [negb]. fold req.
  rewrite (checkHandler_persisted env out req w (Page.text u) id now eq_refl
             (textMissing_nonblank _ Ht) Hi).
  reflexivity.
Qed.

End PageRequests.

(** X18: when the text of the page is blank, or the notify button is used
    with a blank address, [handleCheck] shows its own message, clears the
    previous result and sends nothing: the server's world is as before. *)
Theorem page_validation_sends_nothing
  (withNotify : bool) (net : Page.Net) (env : Env) (out : Outside)
  (u : Page.t) (w : World) :
  trim (Page.text u) = "" \/ (withNotify = true /\ trim (Page.alertEmail u) = "") ->
  let r := Page.handleCheck withNotify net env out (u, w) in
  snd r = w /\
  (Page.error (fst r) = "Please type or paste an email text." \/
   Page.error (fst r) = "Please enter an email address for alerts.") /\
  Page.result (fst r) = JsStr "" /\
  Page.probability (fst r) = None /\
  Page.matchedKeywords (fst r) = [].
Proof.
  intros H. unfold Page.handleCheck.
  destruct (truthy (JsStr (trim (Page.text u)))) eqn:Et; cbn [negb].
  - destruct H as [H | [-> H]]; [rewrite H in Et; discriminate Et|].
    rewrite H. cbn. auto 6.
  - cbn. auto 6.
Qed.

Lemma page_validation_sends_nothing_witness :
  snd (Page.handleCheck true (Page.mkNet true true) (mkEnv None None)
         scanOrderServer
         (Page.mk "free cash" "   " (JsStr "spam") (Some 1%float) None ["free"]
                  (History []) false "", tieWorld))
  = tieWorld.
Proof.
  refine (proj1 (page_validation_sends_nothing true (Page.mkNet true true)
                   (mkEnv None None) scanOrderServer
                   (Page.mk "free cash" "   " (JsStr "spam") (Some 1%float) None
                            ["free"] (History []) false "")
                   tieWorld _)).
  right. split; reflexivity.
Defined.

(** X19: when the text and the address pass the page's checks, the server
    is reached and the record is written, the page shows the analysis of
    its text with the time of the record and no error, stops loading, and
    the collection holds one more record, that of the text. *)
Theorem page_check_shows_analysis
  (withNotify : bool) (net : Page.Net) (env : Env) (out : Outside)
  (u : Page.t) (w : World) (id : ObjectId) (now : Z) :
  trim (Page.text u) <> "" ->
  (withNotify = true -> trim (Page.alertEmail u) <> "") ->
  Page.checkReachable net = true ->
  insert out = Some (id, now) ->
  let r := Page.handleCheck withNotify net env out (u, w) in
  let a := analyzeSpam (Page.text u) in
  Page.result (fst r) = JsStr (result a) /\
  Page.probability (fst r) = Some (probability a) /\
  Page.matchedKeywords (fst r) = matchedKeywords a /\
  Page.time (fst r) = Some now /\
  Page.error (fst r) = "" /\
  Page.loading (fst r) = false /\
  collection (snd r) = (collection w ++ [recordOf id now (Page.text u)])%list.
Proof.
  intros Ht Ha Hn Hi r a. unfold r.
  rewrite (handleCheck_written withNotify net env out u w id now Ht Ha Hn Hi).
  match goal with
  | |- context [Page.loadHistory net out (?u1, ?w1)] =>
      destruct (loadHistory_keeps net out u1 w1)
        as (H1 & H2 & H3 & H4 & H5 & H6 & H7 & _)
  end.
  rewrite H1, H2, H3, H4, H5, H6, H7. cbn [Page.result Page.probability
    Page.time Page.matchedKeywords Page.error Page.loading].
  repeat split.
  rewrite (checkHandler_persisted env out
             (mkRequest (JsStr (Page.text u))
                (if withNotify then JsStr (trim (Page.alertEmail u)) else JsNull))
             w (Page.text u) id now eq_refl (textMissing_nonblank _ Ht) Hi).
  cbn [snd].
  match goal with |- context [if ?c then _ else _] => destruct c end; reflexivity.
Qed.

Lemma page_check_shows_analysis_witness :
  Page.result
    (fst (Page.handleCheck false (Page.mkNet true true) (mkEnv None None)
            (mkOutside (Some ("c", 2000%Z)) (fun _ => Normal "m1") scanOrderFind)
            (Page.mk "Free CASH" "" (JsStr "") None None [] (History []) false "",
             tieWorld)))
  = JsStr "not_spam".
Proof.
  refine (proj1 (page_check_shows_analysis false (Page.mkNet true true)
                   (mkEnv None None)
                   (mkOutside (Some ("c", 2000%Z)) (fun _ => Normal "m1") scanOrderFind)
                   (Page.mk "Free CASH" "" (JsStr "") None None [] (History [])
                            false "")
                   tieWorld "c" 2000%Z _ _ _ _)).
  - discriminate.
  - discriminate.
  - reflexivity.
  - reflexivity.
Defined.

Section PageAlerts.

Variables (net : Page.Net) (env : Env) (out : Outside) (u : Page.t) (w : World).

(** The messages handed to the transporter by a written check of the
    page. *)
Lemma handleCheck_attempts (withNotify : bool) (id : ObjectId) (now : Z) :
  trim (Page.text u) <> "" ->
  (withNotify = true -> trim (Page.alertEmail u) <> "") ->
  Page.checkReachable net = true ->
  insert out = Some (id, now) ->
  let notifyEmail := if withNotify then JsStr (trim (Page.alertEmail u)) else JsNull in
  let a := analyzeSpam (Page.text u) in
  attempts (snd (Page.handleCheck withNotify net env out (u, w)))
  = (if (truthy notifyEmail || truthy (envValue (ALERT_DEFAULT_TO env)))
        && (2 <=? scoreOf (Page.text u))%nat
     then attempts w ++ [mailOptions env notifyEmail (Page.text u)
                                     (probability a) (matchedKeywords a)]
     else attempts w)%list.
Proof.
  intros Ht Ha Hn Hi notifyEmail a. subst notifyEmail a.
  rewrite (handleCheck_written withNotify net env out u w id now Ht Ha Hn Hi).
  match goal with
  | |- context [Page.loadHistory net out (?u1, ?w1)] =>
      destruct (loadHistory_keeps net out u1 w1) as (_ & _ & _ & _ & _ & _ & _ & H8)
  end.
  rewrite H8.
  rewrite (checkHandler_persisted env out
             (mkRequest (JsStr (Page.text u))
                (if withNotify then JsStr (trim (Page.alertEmail u)) else JsNull))
             w (Page.text u) id now eq_refl (textMissing_nonblank _ Ht) Hi).
  cbn [snd req_notifyEmail]. rewrite <- shouldNotify_score.
  match goal with |- context [if ?c then _ else _] => destruct c end; reflexivity.
Qed.

End PageAlerts.

(** X20: the plain check button asks for no alert, yet its request leaves
    the recipient empty and the server falls back on the default one: when
    a default recipient is configured and the text matches at least two
    indicators, one alert is handed to the transporter, addressed to the
    default recipient; without a default none is. *)
Theorem plain_check_alerts_default
  (net : Page.Net) (env : Env) (out : Outside) (u : Page.t) (w : World)
  (id : ObjectId) (now : Z) :
  trim (Page.text u) <> "" ->
  Page.checkReachable net = true ->
  insert out = Some (id, now) ->
  let a := analyzeSpam (Page.text u) in
  let m := mailOptions env JsNull (Page.text u) (probability a) (matchedKeywords a) in
  attempts (snd (Page.handleCheck false net env out (u, w)))
  = (if truthy (envValue (ALERT_DEFAULT_TO env)) && (2 <=? scoreOf (Page.text u))%nat
     then attempts w ++ [m] else attempts w)%list /\
  to m = envValue (ALERT_DEFAULT_TO env).
Proof.
  intros Ht Hn Hi a m. split; [|reflexivity].
  exact (handleCheck_attempts net env out u w false id now Ht
           (fun H => ltac:(discriminate H)) Hn Hi).
Qed.

Lemma plain_check_alerts_default_witness :
  attempts
    (snd (Page.handleCheck false (Page.mkNet true true)
            (mkEnv None (Some "ops@example.org"))
            (mkOutside (Some ("c", 2000%Z)) (fun _ => Normal "m1") scanOrderFind)
            (Page.mk "Free CASH" "" (JsStr "") None None [] (History []) false "",
             tieWorld)))
  = [mkMail JsUndefined (JsStr "ops@example.org") 0.4 "free, cash" "Free CASH"].
Proof.
  refine (proj1 (plain_check_alerts_default (Page.mkNet true true)
                   (mkEnv None (Some "ops@example.org"))
                   (mkOutside (Some ("c", 2000%Z)) (fun _ => Normal "m1") scanOrderFind)
                   (Page.mk "Free CASH" "" (JsStr "") None None [] (History [])
                            false "")
                   tieWorld "c" 2000%Z _ _ _)).
  - discriminate.
  - reflexivity.
  - reflexivity.
Defined.

(** X21: the notify button sends the trimmed address of the page as
    recipient, so the alert, handed over exactly when the text matches at
    least two indicators, goes to that address whether a default
    recipient is configured or not. *)
Theorem notify_check_alerts_address
  (net : Page.Net) (env : Env) (out : Outside) (u : Page.t) (w : World)
  (id : ObjectId) (now : Z) :
  trim (Page.text u) <> "" ->
  trim (Page.alertEmail u) <> "" ->
  Page.checkReachable net = true ->
  insert out = Some (id, now) ->
  let a := analyzeSpam (Page.text u) in
  let m := mailOptions env (JsStr (trim (Page.alertEmail u))) (Page.text u)
                       (probability a) (matchedKeywords a) in
  attempts (snd (Page.handleCheck true net env out (u, w)))
  = (if (2 <=? scoreOf (Page.text u))%nat
     then attempts w ++ [m] else attempts w)%list /\
  to m = JsStr (trim (Page.alertEmail u)).
Proof.
  intros Ht Ha Hn Hi a m. split.
  - rewrite (handleCheck_attempts net env out u w true id now Ht (fun _ => Ha) Hn Hi).
    now rewrite (truthy_nonempty _ Ha).
  - unfold m, mailOptions, js_or. cbn [to]. now rewrite (truthy_nonempty _ Ha).
Qed.

Lemma notify_check_alerts_address_witness :
  attempts
    (snd (Page.handleCheck true (Page.mkNet true true)
            (mkEnv None (Some "ops@example.org"))
            (mkOutside (Some ("c", 2000%Z)) (fun _ => Normal "m1") scanOrderFind)
            (Page.mk "Free CASH" " me@example.org " (JsStr "") None None []
                     (History []) false "",
             tieWorld)))
  = [mkMail JsUndefined (JsStr "me@example.org") 0.4 "free, cash" "Free CASH"].
Proof.
  refine (proj1 (notify_check_alerts_address (Page.mkNet true true)
                   (mkEnv None (Some "ops@example.org"))
                   (mkOutside (Some ("c", 2000%Z)) (fun _ => Normal "m1") scanOrderFind)
                   (Page.mk "Free CASH" " me@example.org " (JsStr "") None None []
                            (History []) false "")
                   tieWorld "c" 2000%Z _ _ _ _)).
  - discriminate.
  - discriminate.
  - reflexivity.
  - reflexivity.
Defined.

(** X22: the page never shows the server's "Text is required": it sends a
    text only after the check the server repeats.  After [handleCheck]
    the error is empty, one of the page's own three messages, or "Server
    error"; and unless it is empty the collection is as before. *)
Theorem page_errors
  (withNotify : bool) (net : Page.Net) (env : Env) (out : Outside)
  (u : Page.t) (w : World) :
  let r := Page.handleCheck withNotify net env out (u, w) in
  In (Page.error (fst r))
     [""; "Please type or paste an email text.";
      "Please enter an email address for alerts."; Page.unreachable;
      "Server error"] /\
  Page.error (fst r) <> "Text is required" /\
  (Page.error (fst r) <> "" -> collection (snd r) = collection w).
Proof.
  intros r.
  assert (H : In (Page.error (fst r))
                 [""; "Please type or paste an email text.";
                  "Please enter an email address for alerts."; Page.unreachable;
                  "Server error"] /\
              (Page.error (fst r) <> "" -> collection (snd r) = collection w)).
  { unfold r.
    destruct (string_dec (trim (Page.text u)) "") as [Et | Et].
    { unfold Page.handleCheck. rewrite Et. cbn. split; [auto 10 | intros _; reflexivity]. }
    destruct (Bool.bool_dec (withNotify
                && negb (truthy (JsStr (trim (Page.alertEmail u))))) true)
      as [Ea | Ea].
    { unfold Page.handleCheck. rewrite (truthy_nonempty _ Et), Ea. cbn. split; [auto 10 | intros _; reflexivity]. }
    apply Bool.not_true_is_false in Ea.
    destruct (Page.checkReachable net) eqn:En.
    2:{ unfold Page.handleCheck.
        rewrite (truthy_nonempty _ Et), Ea, En. cbn. split; [auto 10 | intros _; reflexivity]. }
    destruct (insert out) as [[id now]|] eqn:Hi.
    - assert (Ha : withNotify = true -> trim (Page.alertEmail u) <> "").
      { intros -> E. rewrite E in Ea. discriminate Ea. }
      rewrite (handleCheck_written withNotify net env out u w id now Et Ha En Hi).
      match goal with
      | |- context [Page.loadHistory net out (?u1, ?w1)] =>
          destruct (loadHistory_keeps net out u1 w1)
            as (_ & _ & _ & _ & H5 & _ & _ & _)
      end.
      rewrite H5. cbn [Page.error]. split; [now left|].
      intros H. now destruct H.
    - unfold Page.handleCheck.
      rewrite (truthy_nonempty _ Et), Ea, En. cbn [negb].
      rewrite (checkHandler_unwritten env out
                 (mkRequest (JsStr (Page.text u))
                    (if withNotify then JsStr (trim (Page.alertEmail u)) else JsNull))
                 w (textMissing_nonblank _ Et) Hi).
      cbn. split; [auto 10 | intros _; reflexivity]. }
  destruct H as [Hin Hc]. split; [exact Hin|]. split; [|exact Hc].
  intros E. rewrite E in Hin. simpl in Hin. unfold Page.unreachable in Hin.
  intuition discriminate.
Qed.

(** X23: [loadHistory] does not look at the status: when the history
    query is rejected, the error body of the 500 response becomes the
    history of the page, in place of a list of records. *)
Theorem history_error_becomes_history
  (net : Page.Net) (out : Outside) (u : Page.t) (w : World) :
  Page.historyReachable net = true ->
  find out (collection w) = None ->
  Page.history (fst (Page.loadHistory net out (u, w))) = Message "Server error" /\
  collection (snd (Page.loadHistory net out (u, w))) = collection w.
Proof.
  intros Hn Hf.
  unfold Page.loadHistory, historyHandler, try_catch, bind, findRecent, log, ret.
  rewrite Hn, Hf. split; reflexivity.
Qed.

Lemma history_error_becomes_history_witness :
  Page.history
    (fst (Page.loadHistory (Page.mkNet true true)
            (mkOutside None (fun _ => Normal "m1") None)
            (Page.initial, tieWorld)))
  = Message "Server error".
Proof.
  refine (proj1 (history_error_becomes_history (Page.mkNet true true)
                   (mkOutside None (fun _ => Normal "m1") None)
                   Page.initial tieWorld _ _)); reflexivity.
Defined.

(** X24: a request keeps the verdict invariant of the collection: if
    every stored record is "spam" exactly when its probability is at
    least 0.5, so is every record after the request, whatever the request
    and the collaborators do. *)
Theorem stored_verdicts_consistent
  (env : Env) (out : Outside) (req : Request) (w : World) :
  Forall verdictConsistent (collection w) ->
  Forall verdictConsistent (collection (snd (checkHandler env out req w))) /\
  exists added, collection (snd (checkHandler env out req w))
                = (collection w ++ added)%list /\ List.length added <= 1.
Proof.
  intros H. split; [now apply checkHandler_keeps_verdicts|].
  destruct (checkHandler_appends env out req w) as [-> | (text & id & now & _ & ->)].
  - exists []. rewrite app_nil_r. split; [reflexivity | simpl; lia].
  - eexists. split; [reflexivity | simpl; lia].
Qed.

Lemma stored_verdicts_consistent_witness :
  Forall verdictConsistent
    (collection
       (snd (checkHandler (mkEnv None None)
               (mkOutside (Some ("c", 2000%Z)) (fun _ => Normal "m1") scanOrderFind)
               (mkRequest (JsStr "free cash prize") JsNull)
               (mkWorld [] [] [])))).
Proof.
  refine (proj1 (stored_verdicts_consistent (mkEnv None None)
                   (mkOutside (Some ("c", 2000%Z)) (fun _ => Normal "m1") scanOrderFind)
                   (mkRequest (JsStr "free cash prize") JsNull)
                   (mkWorld [] [] []) _)).
  constructor.
Defined.

(** ** The percentages of the page *)

Lemma percent_shown (n : nat) :
  n <= 12 ->
  PageView.toFixed 2 (PrimFloat.mul (probabilityOf n) 100)
  = Some (decimal (Z.of_nat (20 * Nat.min n 5)) ++ ".00") /\
  PageView.toFixed 1 (PrimFloat.mul (probabilityOf n) 100)
  = Some (decimal (Z.of_nat (20 * Nat.min n 5)) ++ ".0").
Proof.
  intros H.
  do 13 (destruct n as [|n]; [split; vm_compute; reflexivity|]); exfalso; lia.
Qed.

(** X25: the percentages of the page are exact: for the probability of a
    text the page shows 20 for each matched indicator, 100 at most, with
    two decimals ".00", and the history row of its record the same with
    one decimal ".0"; the rounding of the division by 5 never shows. *)
Theorem page_percent_exact
  (u : Page.t) (text : string) (id : ObjectId) (now : Z) :
  Page.probability u = Some (probability (analyzeSpam text)) ->
  let p := decimal (Z.of_nat (20 * Nat.min (scoreOf text) 5)) in
  PageView.spamPercent u = Some (p ++ ".00%") /\
  PageView.historyPercent (view (recordOf id now text)) = Some (p ++ ".0%").
Proof.
  intros Hu p.
  destruct (percent_shown (scoreOf text) (score_le_12 text)) as [H2 H1].
  unfold PageView.spamPercent, PageView.historyPercent. rewrite Hu.
  cbn [view recordOf SpamCheck.spamProbability].
  rewrite probability_eq.
  change (Math_min 1 (PrimFloat.div
            (ofLength (List.length (matchedKeywords (analyzeSpam text)))) 5))
    with (probabilityOf (scoreOf text)).
  rewrite H2, H1. unfold p. now rewrite !append_assoc.
Qed.

Lemma page_percent_exact_witness :
  PageView.spamPercent
    (Page.mk "Free CASH prize" "" (JsStr "spam") (Some 0.6%float) (Some 5%Z)
             ["free"; "prize"; "cash"] (History []) false "")
  = Some "60.00%".
Proof.
  refine (proj1 (page_percent_exact
                   (Page.mk "Free CASH prize" "" (JsStr "spam") (Some 0.6%float)
                            (Some 5%Z) ["free"; "prize"; "cash"] (History [])
                            false "")
                   "Free CASH prize" "c" 5%Z _)).
  reflexivity.
Defined.
